(** * Recorder: merging the key stream and the screen stream

    A shallow embedding of [Recorder.__to_training_data] and of the frame
    rate computed by [Recorder.__save_avi_video] (src/recorder.py), with the
    properties of the two-pointer merge proved over it.

    Conventions of the embedding:
    - Python [float] timestamps are rationals ([Q]): every finite double is
      a rational and the comparisons of the merge are exact. The code also
      subtracts (the cutoff, the time span), adds (the key delay) and
      divides (the frame rate), and rounds each result to binary64. The
      functions of the first part take these operations exactly; the
      functions named [_with] have the float operation as a parameter, and
      every property that depends on the value computed is stated of them,
      whatever the operation returns. [float_sub], [float_add] and
      [float_div] are the operations of binary64, for running them.
    - [np.array] screens are never inspected by the code modelled here, so
      the screen type is a parameter.
    - The Python [set] of held keys is a [gset string]; [list(cur_keys)] is
      [elements], whose order is as unspecified as Python's.
    - Exceptions are values: a computation returns [Ok v] or [Raise e]. *)

From Stdlib Require Import QArith Lqa.
From stdpp Require Import gmap strings list.

Local Open Scope Q_scope.

(** ** Exceptions and results *)

Inductive exn : Type :=
  | IndexError
  | KeyError (key : string)
  | ZeroDivisionError.

Inductive result (A : Type) : Type :=
  | Ok (a : A)
  | Raise (e : exn).
Arguments Ok {A} a.
Arguments Raise {A} e.

(** ** Comparing timestamps *)

#[global] Instance Qlt_decision (x y : Q) : Decision (x < y) :=
  match Qlt_le_dec x y with
  | left H => left H
  | right H => right (Qle_not_lt _ _ H)
  end.

#[global] Instance Qle_decision (x y : Q) : Decision (x <= y) :=
  match Qlt_le_dec y x with
  | left H => right (Qlt_not_le _ _ H)
  | right H => left H
  end.

(** ** The data classes of recorder.py *)

Record KeyEvent : Type := mkKeyEvent {
  key_code : string;
  key_timestamp : Q;
  down : bool
}.

Record ScreenEvent (Screen : Type) : Type := mkScreenEvent {
  screen_of : Screen;
  screen_timestamp : Q
}.
Arguments mkScreenEvent {Screen} _ _.
Arguments screen_of {Screen} _.
Arguments screen_timestamp {Screen} _.

Record DatasetItem (Screen : Type) : Type := mkDatasetItem {
  screen : Screen;
  key_codes : list string;
  timestamp : Q
}.
Arguments mkDatasetItem {Screen} _ _ _.
Arguments screen {Screen} _.
Arguments key_codes {Screen} _.
Arguments timestamp {Screen} _.

(** The fields of [Recorder] that the merge reads. *)
Record Recorder : Type := mkRecorder {
  discard_tail_sec : Q;
  key_recording_delay_sec : Q
}.

(** ** [Recorder.__to_training_data]: the two-pointer merge *)

(** [cur_keys.remove(key)]: Python's [set.remove] raises [KeyError] when the
    element is absent. *)
Definition set_remove (cur_keys : gset string) (key : string) : result (gset string) :=
  if decide (key ∈ cur_keys) then Ok (cur_keys ∖ {[key]}) else Raise (KeyError key).

Section Merge.
Context {Screen : Type}.

(** The local variables of the function that change in the loop. *)
Record state : Type := mkState {
  ki : nat;
  si : nat;
  cur_keys : gset string;
  data_out : list (DatasetItem Screen)
}.

(** How one pass through the loop body ends: at its last statement (and the
    loop test is evaluated next), at [break], or with an exception. *)
Inductive outcome : Type :=
  | Next (st : state)
  | BreakLoop
  | Throw (e : exn).

Section Loop.
Variable key_sequence : list KeyEvent.
Variable screen_sequence : list (ScreenEvent Screen).
Variable end_timestamp : Q.

(** The [else] branch of the body (lines 120-127). *)
Definition emit (st : state) (screen_event : ScreenEvent Screen) : outcome :=
  if decide (end_timestamp < screen_timestamp screen_event) then BreakLoop
  else Next {| ki := ki st;
               si := S (si st);
               cur_keys := cur_keys st;
               data_out := data_out st ++
                 [ {| screen := screen_of screen_event;
                      key_codes := elements (cur_keys st);
                      timestamp := screen_timestamp screen_event |} ] |}.

(** The [if] branch of the body (lines 114-118). *)
Definition consume (st : state) (key_event : KeyEvent) : outcome :=
  if down key_event then
    Next {| ki := S (ki st);
            si := si st;
            cur_keys := {[ key_code key_event ]} ∪ cur_keys st;
            data_out := data_out st |}
  else
    match set_remove (cur_keys st) (key_code key_event) with
    | Ok cur_keys' =>
        Next {| ki := S (ki st);
                si := si st;
                cur_keys := cur_keys';
                data_out := data_out st |}
    | Raise e => Throw e
    end.

(** The loop body (lines 111-127). [key_sequence !! ki] is [None] exactly
    when [ki < len(key_sequence)] fails. *)
Definition iteration (st : state) : outcome :=
  let key_event := key_sequence !! ki st in
  match screen_sequence !! si st with
  | None => Throw IndexError
  | Some screen_event =>
      match key_event with
      | Some key_event =>
          if decide (key_timestamp key_event < screen_timestamp screen_event)
          then consume st key_event
          else emit st screen_event
      | None => emit st screen_event
      end
  end.

(** [while si < len(screen_sequence): ...], with a bound on the number of
    iterations; [None] means the bound was reached. *)
Fixpoint while (fuel : nat) (st : state) : option (result (list (DatasetItem Screen))) :=
  match fuel with
  | O => None
  | S fuel' =>
      if decide (si st < length screen_sequence)%nat then
        match iteration st with
        | Next st' => while fuel' st'
        | BreakLoop => Some (Ok (data_out st))
        | Throw e => Some (Raise e)
        end
      else Some (Ok (data_out st))
  end.
End Loop.

(** Lines 106-108. *)
Definition initial : state :=
  {| ki := 0; si := 0; cur_keys := ∅; data_out := [] |}.

(** The whole function. [screen_sequence[-1]] raises [IndexError] on an
    empty list. The bound given to the loop is never reached
    ([to_training_data_returns] below). *)
Definition to_training_data (self : Recorder)
    (key_sequence : list KeyEvent) (screen_sequence : list (ScreenEvent Screen))
    : option (result (list (DatasetItem Screen))) :=
  match last screen_sequence with
  | None => Some (Raise IndexError)
  | Some last_screen =>
      let end_timestamp := screen_timestamp last_screen - discard_tail_sec self in
      while key_sequence screen_sequence end_timestamp
            (length key_sequence + length screen_sequence + 1) initial
  end.

(** ** [Recorder.__save_avi_video]: the frame rate given to the writer *)

(** Line 139. [len(dataset)] is evaluated first, then [dataset[-1]] and
    [dataset[0]] (each raises [IndexError] on an empty list), then the
    division, which raises [ZeroDivisionError] on a zero divisor. *)
Definition avg_fps (dataset : list (DatasetItem Screen)) : result Q :=
  match last dataset with
  | None => Raise IndexError
  | Some last_item =>
      match head dataset with
      | None => Raise IndexError
      | Some first_item =>
          let span := timestamp last_item - timestamp first_item in
          if Qeq_dec span 0 then Raise ZeroDivisionError
          else Ok (inject_Z (Z.of_nat (length dataset)) / span)
      end
  end.

(** What [record] does with the merged dataset (lines 65-73), as far as
    the frame rate is concerned: nothing is exported for an empty dataset,
    otherwise the video is written at [avg_fps]. *)
Definition export_rate (dataset : list (DatasetItem Screen)) : result (option Q) :=
  if decide (length dataset = 0)%nat then Ok None
  else match avg_fps dataset with
       | Ok fps => Ok (Some fps)
       | Raise e => Raise e
       end.
End Merge.

(** ** Specification-side notions *)

(** Follows the spec's words: the ActiveKeySet reached by applying key
    events in arrival order, "add key identifier on down, remove on up",
    starting from the empty set. *)
Definition apply_transition (active : gset string) (e : KeyEvent) : gset string :=
  if down e then {[ key_code e ]} ∪ active else active ∖ {[ key_code e ]}.

Definition active_key_set (events : list KeyEvent) : gset string :=
  fold_left apply_transition events ∅.

(** A sequence is time-ordered when timestamps never decrease along it. *)
Definition time_ordered {A : Type} (ts : A → Q) (l : list A) : Prop :=
  ∀ i j a b, (i ≤ j)%nat → l !! i = Some a → l !! j = Some b → ts a <= ts b.

(** An executable test for [time_ordered]. *)
Fixpoint time_ordered_check {A : Type} (ts : A → Q) (l : list A) : bool :=
  match l with
  | [] => true
  | a :: l' => forallb (λ b, bool_decide (ts a <= ts b)) l' && time_ordered_check ts l'
  end.

(** ** The loop as a transition system *)

Section Notions.
Context {Screen : Type}.
Variable key_sequence : list KeyEvent.
Variable screen_sequence : list (ScreenEvent Screen).
Variable end_timestamp : Q.

(** One full iteration that returns to the loop test. *)
Definition step (st st' : @state Screen) : Prop :=
  (si st < length screen_sequence)%nat ∧
  iteration key_sequence screen_sequence end_timestamp st = Next st'.

(** The states at which the loop test is evaluated. *)
Definition reachable (st : @state Screen) : Prop := rtc step initial st.

(** How the loop is left from a state, and with what. *)
Inductive leaves (st : @state Screen) : result (list (DatasetItem Screen)) → Prop :=
  | leaves_exhausted :
      ¬ (si st < length screen_sequence)%nat → leaves st (Ok (data_out st))
  | leaves_break :
      (si st < length screen_sequence)%nat →
      iteration key_sequence screen_sequence end_timestamp st = BreakLoop →
      leaves st (Ok (data_out st))
  | leaves_throw e :
      (si st < length screen_sequence)%nat →
      iteration key_sequence screen_sequence end_timestamp st = Throw e →
      leaves st (Raise e).

(** The variant of the loop: what is left of the two sequences. *)
Definition remaining (st : @state Screen) : nat :=
  (length key_sequence - ki st) + (length screen_sequence - si st).

(** An ['up'] event is due at [st] (it is the next key event and is strictly
    before the current frame) while its key is not held. *)
Definition unmatched_up (st : @state Screen) (key : string) : Prop :=
  ∃ ke se,
    key_sequence !! ki st = Some ke ∧ screen_sequence !! si st = Some se ∧
    key_timestamp ke < screen_timestamp se ∧
    down ke = false ∧ key_code ke = key ∧ key ∉ cur_keys st.

(** An emitted item and the frame it was made from. *)
Definition item_of_frame (item : DatasetItem Screen) (se : ScreenEvent Screen) : Prop :=
  screen item = screen_of se ∧ timestamp item = screen_timestamp se ∧
  screen_timestamp se <= end_timestamp.

(** The items emitted so far are the frames before the frame cursor, one for
    one and in order, and none of these frames is after the cutoff. *)
Definition emitted_prefix (st : @state Screen) : Prop :=
  Forall2 item_of_frame (data_out st) (take (si st) screen_sequence).

(** The held keys are what the spec's replay of the consumed events gives;
    the consumed events are strictly before the current frame; and every
    emitted item carries the replay of the events strictly before its own
    timestamp. *)
Definition keys_replayed (st : @state Screen) : Prop :=
  cur_keys st = active_key_set (take (ki st) key_sequence) ∧
  (∀ se, screen_sequence !! si st = Some se →
     Forall (λ ke, key_timestamp ke < screen_timestamp se) (take (ki st) key_sequence)) ∧
  Forall (λ item,
           list_to_set (key_codes item) =
             active_key_set (filter (λ ke, key_timestamp ke < timestamp item) key_sequence) ∧
           NoDup (key_codes item))
         (data_out st).

(** What an iteration started at [st] may do, in the words of the claim on
    termination: advance the key cursor, advance the frame cursor, or exit
    at the cutoff. *)
Definition advances_or_exits (st : @state Screen) : Prop :=
  (∃ st', iteration key_sequence screen_sequence end_timestamp st = Next st' ∧
          ki st' = S (ki st) ∧ si st' = si st ∧
          (ki st' ≤ length key_sequence)%nat) ∨
  (∃ st', iteration key_sequence screen_sequence end_timestamp st = Next st' ∧
          si st' = S (si st) ∧ ki st' = ki st ∧
          (si st' ≤ length screen_sequence)%nat) ∨
  (iteration key_sequence screen_sequence end_timestamp st = BreakLoop ∧
   ∃ se, screen_sequence !! si st = Some se ∧
         end_timestamp < screen_timestamp se).

(** The fourth possibility: the iteration raises at an unmatched ['up']. *)
Definition raises_KeyError (st : @state Screen) : Prop :=
  ∃ key, iteration key_sequence screen_sequence end_timestamp st = Throw (KeyError key) ∧
         unmatched_up st key.

(** The states at which the loop test is evaluated, from [st] on, as a
    list. *)
Fixpoint trace (fuel : nat) (st : @state Screen) : list (@state Screen) :=
  st ::
  match fuel with
  | O => []
  | S fuel' =>
      if decide (si st < length screen_sequence)%nat then
        match iteration key_sequence screen_sequence end_timestamp st with
        | Next st' => trace fuel' st'
        | _ => []
        end
      else []
  end.

(** The executable form of [unmatched_up]. *)
Definition unmatched_up_check (st : @state Screen) : bool :=
  match key_sequence !! ki st, screen_sequence !! si st with
  | Some ke, Some se =>
      bool_decide (key_timestamp ke < screen_timestamp se) &&
      negb (down ke) && bool_decide (key_code ke ∉ cur_keys st)
  | _, _ => false
  end.

Definition all_ups_matched : bool :=
  forallb (λ st, negb (unmatched_up_check st))
          (trace (length key_sequence + length screen_sequence) initial).
End Notions.

(** ** Concrete sessions *)

(** Frames at t = 0, 1, 2, 3, 4 (the screens are numbered), one key pressed
    at t = 0.5 and released at t = 2.5. *)
Definition scenario_keys : list KeyEvent :=
  [ mkKeyEvent "k" 0.5 true; mkKeyEvent "k" 2.5 false ].

Definition scenario_screens : list (ScreenEvent nat) :=
  [ mkScreenEvent 0%nat 0; mkScreenEvent 1%nat 1; mkScreenEvent 2%nat 2;
    mkScreenEvent 3%nat 3; mkScreenEvent 4%nat 4 ].

(** A recorder with the default key delay and a chosen tail to discard. *)
Definition recorder_discarding (tail : Q) : Recorder :=
  {| discard_tail_sec := tail; key_recording_delay_sec := -0.010 |}.

Definition scenario_dataset : list (DatasetItem nat) :=
  [ mkDatasetItem 0%nat [] 0; mkDatasetItem 1%nat ["k"%string] 1;
    mkDatasetItem 2%nat ["k"%string] 2; mkDatasetItem 3%nat [] 3;
    mkDatasetItem 4%nat [] 4 ].

(** ** Further notions on the merge *)

(** The key events applied one after the other the way the loop body
    applies them (lines 114-117), with Python's raising [set.remove]; an
    exception ends the replay. *)
Definition replay_event (cur : result (gset string)) (e : KeyEvent) : result (gset string) :=
  match cur with
  | Ok cur_keys =>
      if down e then Ok ({[ key_code e ]} ∪ cur_keys)
      else set_remove cur_keys (key_code e)
  | Raise x => Raise x
  end.

Definition replay (events : list KeyEvent) : result (gset string) :=
  fold_left replay_event events (Ok ∅).

(** Timestamps strictly increase along the sequence. *)
Definition strictly_time_ordered {A : Type} (ts : A → Q) (l : list A) : Prop :=
  ∀ i j a b, (i < j)%nat → l !! i = Some a → l !! j = Some b → ts a < ts b.

Fixpoint strictly_time_ordered_check {A : Type} (ts : A → Q) (l : list A) : bool :=
  match l with
  | [] => true
  | a :: l' => forallb (λ b, bool_decide (ts a < ts b)) l' && strictly_time_ordered_check ts l'
  end.

(** Whatever the timestamps are, the held keys are the spec's replay of the
    consumed events, and every emitted item carries the replay of some
    prefix of the key sequence. *)
Definition keys_consumed {Screen : Type} (key_sequence : list KeyEvent)
    (st : @state Screen) : Prop :=
  cur_keys st = active_key_set (take (ki st) key_sequence) ∧
  Forall (λ item, ∃ n, key_codes item = elements (active_key_set (take n key_sequence)))
         (data_out st).

(** ** [Recorder.__record_keyboard] and [Recorder.__record_screen] *)

(** The fields of [keyboard.KeyboardEvent] that the callback reads. *)
Record KeyboardEvent : Type := mkKeyboardEvent {
  name : string;
  event_type : string
}.

(** The callback [handle_event] (lines 83-86). [now] is what
    [datetime.now().timestamp()] reads during the call. *)
Definition handle_event (self : Recorder) (key_sequence : list KeyEvent)
    (now : Q) (event : KeyboardEvent) : list KeyEvent :=
  key_sequence ++
  [ {| key_code := name event;
       key_timestamp := now + key_recording_delay_sec self;
       down := bool_decide (event_type event = "down"%string) |} ].

(** What [__record_keyboard] returns (lines 80-92): the list is empty when
    the hooks are set, and [deliveries] are the calls of the callback until
    the stop event, in order, each with its clock reading. *)
Definition record_keyboard (self : Recorder) (deliveries : list (Q * KeyboardEvent))
    : list KeyEvent :=
  fold_left (λ key_sequence d, handle_event self key_sequence d.1 d.2) deliveries [].

(** What [__record_screen] returns (lines 100-103): [captures] are the
    images the streamer yields, in order, each with the clock reading taken
    when it is appended. *)
Definition record_screen {Screen : Type} (captures : list (Screen * Q))
    : list (ScreenEvent Screen) :=
  fold_left (λ screens c, screens ++ [ {| screen_of := c.1; screen_timestamp := c.2 |} ])
            captures [].

(** The key event made of one delivery. *)
Definition key_event_of (self : Recorder) (d : Q * KeyboardEvent) : KeyEvent :=
  {| key_code := name d.2;
     key_timestamp := d.1 + key_recording_delay_sec self;
     down := bool_decide (event_type d.2 = "down"%string) |}.

(** A press and a release of one key, delivered at t = 1 and t = 2.5, and
    three captures at t = 0, 1, 2. *)
Definition scenario_deliveries : list (Q * KeyboardEvent) :=
  [ (1, mkKeyboardEvent "k" "down"); (2.5, mkKeyboardEvent "k" "up") ].

Definition scenario_captures : list (nat * Q) :=
  [ (0%nat, 0); (1%nat, 1); (2%nat, 2) ].

(** ** What [record] does with the merged dataset *)

(** The exceptions of the exporter: the built-in ones above and numpy's
    [ValueError]. *)
Inductive export_exn : Type :=
  | Builtin (e : exn)
  | ValueError.

(** The lines printed. [AverageFps fps] stands for
    ['average fps =', round(fps, 2)]. *)
Inductive message : Type :=
  | SkippingEmpty
  | AverageFps (fps : Q)
  | SavedTo (folder_name : string).

Section Exporter.
Context {Screen Dir : Type}.

(** The calls that reach outside the program, in the order they are made.
    A path is the list of the components joined by [os.path.join]. Each
    call is taken to succeed. *)
Inductive effect : Type :=
  | Print (m : message)
  | Mkdir (path : list string)
  | NpSaveKeys (path : list string) (rows : list Dir)
  | NpSaveScreens (path : list string) (rows : list Screen)
  | VideoWriterOpen (path : list string) (fps : Q)
  | VideoWrite (frame : Screen)
  | VideoRelease.

(** A computation: the calls made so far, and an exception or a value. *)
Definition io (A : Type) : Type := (list effect * (export_exn + A))%type.

Definition io_return {A : Type} (a : A) : io A := ([], inr a).

Definition io_raise {A : Type} (e : export_exn) : io A := ([], inl e).

Definition io_call (e : effect) : io unit := ([e], inr tt).

Definition io_bind {A B : Type} (m : io A) (k : A → io B) : io B :=
  match m with
  | (calls, inl e) => (calls, inl e)
  | (calls, inr a) => let '(calls', r) := k a in (calls ++ calls', r)
  end.

Definition io_of_result {A : Type} (r : result A) : io A :=
  match r with
  | Ok a => io_return a
  | Raise e => io_raise (Builtin e)
  end.

(** [for x in l: body(x)]. *)
Fixpoint io_for {A : Type} (l : list A) (body : A → io unit) : io unit :=
  match l with
  | [] => io_return tt
  | x :: l' => io_bind (body x) (λ _, io_for l' body)
  end.

(** [np.stack] of a list of arrays of one shape: the list of rows. It
    raises [ValueError] on an empty list. *)
Definition np_stack {A : Type} (arrays : list A) : io (list A) :=
  match arrays with
  | [] => io_raise ValueError
  | _ => io_return arrays
  end.

(** What this file uses and the sources under src/ do not define:
    [keys_to_directions] of helper.transforms and the three file names of
    helper.data_format; [save_dir] is the field of the recorder. *)
Variable keys_to_directions : list string → Dir.
Variable np_keys_filename np_screens_filename avi_video_filename : string.
Variable save_dir : string.

(** Lines 130-132. *)
Definition save_np_screens (dataset : list (DatasetItem Screen)) (folder : string)
    : io unit :=
  io_bind (np_stack (screen <$> dataset)) (λ stacked,
  io_call (NpSaveScreens [save_dir; folder; np_screens_filename] stacked)).

(** Lines 134-136. *)
Definition save_np_keys (dataset : list (DatasetItem Screen)) (folder : string)
    : io unit :=
  io_bind (np_stack ((λ x, keys_to_directions (key_codes x)) <$> dataset)) (λ stacked,
  io_call (NpSaveKeys [save_dir; folder; np_keys_filename] stacked)).

(** Lines 138-146. *)
Definition save_avi_video (dataset : list (DatasetItem Screen)) (folder : string)
    : io unit :=
  io_bind (io_of_result (avg_fps dataset)) (λ fps,
  io_bind (io_call (Print (AverageFps fps))) (λ _,
  io_bind (io_call (VideoWriterOpen [save_dir; folder; avi_video_filename] fps)) (λ _,
  io_bind (io_for dataset (λ item, io_call (VideoWrite (screen item)))) (λ _,
  io_call VideoRelease)))).

(** Lines 65-74 of [record]. [folder_name] is the formatted clock reading
    of line 69. *)
Definition save_session (dataset : list (DatasetItem Screen)) (folder_name : string)
    : io unit :=
  if decide (length dataset = 0)%nat then io_call (Print SkippingEmpty)
  else
    io_bind (io_call (Mkdir [save_dir; folder_name])) (λ _,
    io_bind (save_np_keys dataset folder_name) (λ _,
    io_bind (save_np_screens dataset folder_name) (λ _,
    io_bind (save_avi_video dataset folder_name) (λ _,
    io_call (Print (SavedTo folder_name)))))).

(** The calls made before the video is written, for a non-empty dataset:
    the folder, the key array, the screen array. *)
Definition calls_before_video (dataset : list (DatasetItem Screen)) (folder_name : string)
    : list effect :=
  [ Mkdir [save_dir; folder_name];
    NpSaveKeys [save_dir; folder_name; np_keys_filename]
               ((λ x, keys_to_directions (key_codes x)) <$> dataset);
    NpSaveScreens [save_dir; folder_name; np_screens_filename] (screen <$> dataset) ].

End Exporter.

(** ** Float arithmetic *)

(** The timestamps are Python floats. The functions above take the
    subtraction of line 109, the addition of line 85 and the division of
    line 139 exactly. The code rounds each of them to binary64, and the
    definitions below have the float operation as a parameter: [fsub a b],
    [fadd a b] and [fdiv a b] stand for what the operation returns on the
    finite floats [a] and [b]. What is proved of them holds whatever the
    operation returns. *)

(** Binary64 rounding of a rational, to the nearest float, ties to even:
    a significand of 53 bits, subnormal numbers below 2^-1022. The largest
    exponent is not bounded, so a result beyond the range of binary64 is not
    turned into an infinity. *)
Definition round_half_even (a b : Z) : Z :=
  let q := (a / b)%Z in
  let r := (a mod b)%Z in
  match (2 * r ?= b)%Z with
  | Lt => q
  | Gt => (q + 1)%Z
  | Eq => if Z.even q then q else (q + 1)%Z
  end.

(** [n / (d * 2^e)] as a fraction of integers. *)
Definition scaled (n d e : Z) : Z * Z :=
  if (0 <=? e)%Z then (n, (d * 2 ^ e)%Z) else ((n * 2 ^ (- e))%Z, d).

(** The exponent [e] of the float nearest to [n / d]: the one for which
    [n / (d * 2^e)] is in [[2^52, 2^53)], and -1074 for subnormal numbers. *)
Definition binary64_exponent (n d : Z) : Z :=
  let e0 := (Z.log2 n - Z.log2 d - 52)%Z in
  let '(a, b) := scaled n d e0 in
  Z.max (if (a <? 2 ^ 52 * b)%Z then (e0 - 1)%Z else e0) (-1074).

Definition of_significand (m e : Z) : Q :=
  if (0 <=? e)%Z then inject_Z (m * 2 ^ e) else Qmake m (Z.to_pos (2 ^ (- e))).

Definition round64_pos (n d : Z) : Q :=
  let e := binary64_exponent n d in
  let '(a, b) := scaled n d e in
  of_significand (round_half_even a b) e.

Definition round64 (q : Q) : Q :=
  match Qnum q with
  | Z0 => 0
  | Zpos n => round64_pos (Zpos n) (Zpos (Qden q))
  | Zneg n => - round64_pos (Zpos n) (Zpos (Qden q))
  end.

(** The three operations of binary64. *)
Definition float_sub (a b : Q) : Q := round64 (a - b).

Definition float_add (a b : Q) : Q := round64 (a + b).

Definition float_div (a b : Q) : Q := round64 (a / b).

(** ** The functions of the recorder over float arithmetic *)

Section FloatMerge.
Context {Screen : Type}.
Variable fsub : Q → Q → Q.
Variable fdiv : Q → Q → Q.

(** [__to_training_data] (lines 105-128); the cutoff is what the
    subtraction of line 109 returns. *)
Definition to_training_data_with (self : Recorder)
    (key_sequence : list KeyEvent) (screen_sequence : list (ScreenEvent Screen))
    : option (result (list (DatasetItem Screen))) :=
  match last screen_sequence with
  | None => Some (Raise IndexError)
  | Some last_screen =>
      let end_timestamp := fsub (screen_timestamp last_screen) (discard_tail_sec self) in
      while key_sequence screen_sequence end_timestamp
            (length key_sequence + length screen_sequence + 1) initial
  end.

(** Line 139; the frame rate is what the division returns, of the number
    of items as a float (a number of items is below 2^53 and converts
    exactly) and of what the subtraction returns. A float division raises
    [ZeroDivisionError] when the divisor is zero. *)
Definition avg_fps_with (dataset : list (DatasetItem Screen)) : result Q :=
  match last dataset with
  | None => Raise IndexError
  | Some last_item =>
      match head dataset with
      | None => Raise IndexError
      | Some first_item =>
          let span := fsub (timestamp last_item) (timestamp first_item) in
          if Qeq_dec span 0 then Raise ZeroDivisionError
          else Ok (fdiv (inject_Z (Z.of_nat (length dataset))) span)
      end
  end.
End FloatMerge.

Section FloatCapture.
Variable fadd : Q → Q → Q.

(** [handle_event] (lines 83-86); the key timestamp is what the addition of
    line 85 returns. *)
Definition handle_event_with (self : Recorder) (key_sequence : list KeyEvent)
    (now : Q) (event : KeyboardEvent) : list KeyEvent :=
  key_sequence ++
  [ {| key_code := name event;
       key_timestamp := fadd now (key_recording_delay_sec self);
       down := bool_decide (event_type event = "down"%string) |} ].

Definition record_keyboard_with (self : Recorder) (deliveries : list (Q * KeyboardEvent))
    : list KeyEvent :=
  fold_left (λ key_sequence d, handle_event_with self key_sequence d.1 d.2) deliveries [].

(** The key event made of one delivery. *)
Definition key_event_with (self : Recorder) (d : Q * KeyboardEvent) : KeyEvent :=
  {| key_code := name d.2;
     key_timestamp := fadd d.1 (key_recording_delay_sec self);
     down := bool_decide (event_type d.2 = "down"%string) |}.
End FloatCapture.

Section FloatExporter.
Context {Screen Dir : Type}.
Variable fsub : Q → Q → Q.
Variable fdiv : Q → Q → Q.
Variable keys_to_directions : list string → Dir.
Variable np_keys_filename np_screens_filename avi_video_filename : string.
Variable save_dir : string.

(** Lines 138-146, at the frame rate [avg_fps_with] computes. *)
Definition save_avi_video_with (dataset : list (DatasetItem Screen)) (folder : string)
    : @io Screen Dir unit :=
  io_bind (io_of_result (avg_fps_with fsub fdiv dataset)) (λ fps,
  io_bind (io_call (Print (AverageFps fps))) (λ _,
  io_bind (io_call (VideoWriterOpen [save_dir; folder; avi_video_filename] fps)) (λ _,
  io_bind (io_for dataset (λ item, io_call (VideoWrite (screen item)))) (λ _,
  io_call VideoRelease)))).

(** Lines 65-74 of [record]. *)
Definition save_session_with (dataset : list (DatasetItem Screen)) (folder_name : string)
    : @io Screen Dir unit :=
  if decide (length dataset = 0)%nat then io_call (Print SkippingEmpty)
  else
    io_bind (io_call (Mkdir [save_dir; folder_name])) (λ _,
    io_bind (save_np_keys keys_to_directions np_keys_filename save_dir
                          dataset folder_name) (λ _,
    io_bind (save_np_screens np_screens_filename save_dir dataset folder_name) (λ _,
    io_bind (save_avi_video_with dataset folder_name) (λ _,
    io_call (Print (SavedTo folder_name)))))).
End FloatExporter.

(** ** Sessions in which the rounding shows *)

(** Two frames at the floats nearest to 0.9 and at 1.0, and a tail of the
    float nearest to 0.1: the session lasts less than the tail, yet the
    float [1.0 - 0.1] is the float nearest to 0.9, the timestamp of the
    first frame. *)
Definition close_screens : list (ScreenEvent nat) :=
  [ mkScreenEvent 0%nat (round64 0.9); mkScreenEvent 1%nat 1 ].

Definition close_recorder : Recorder := recorder_discarding (round64 0.1).

(** A key pressed, by the clock of the callback, at 1700000000.25, with the
    default delay of -0.010, and captures at 1700000000.0 and at the float
    nearest to 1700000000.24, which is what the float addition gives for
    the key. *)
Definition tie_recorder : Recorder :=
  {| discard_tail_sec := 0; key_recording_delay_sec := round64 (-0.010) |}.

Definition tie_deliveries : list (Q * KeyboardEvent) :=
  [ (1700000000.25, mkKeyboardEvent "k" "down") ].

Definition tie_captures : list (nat * Q) :=
  [ (0%nat, 1700000000); (1%nat, round64 1700000000.24) ].

(** Two frames three seconds apart, and what the merge makes of them. *)
Definition slow_screens : list (ScreenEvent nat) :=
  [ mkScreenEvent 0%nat 0; mkScreenEvent 1%nat 3 ].

Definition slow_dataset : list (DatasetItem nat) :=
  [ mkDatasetItem 0%nat [] 0; mkDatasetItem 1%nat [] 3 ].

(** ** Running the loop *)

Section LoopFacts.
Context {Screen : Type}.
Variable key_sequence : list KeyEvent.
Variable screen_sequence : list (ScreenEvent Screen).
Variable end_timestamp : Q.

Abbreviation iter := (iteration key_sequence screen_sequence end_timestamp).
Abbreviation loop := (while key_sequence screen_sequence end_timestamp).
Abbreviation step := (step key_sequence screen_sequence end_timestamp).
Abbreviation leaves := (leaves key_sequence screen_sequence end_timestamp).
Abbreviation remaining := (remaining key_sequence screen_sequence).

Lemma emit_Next (st : @state Screen) se st' :
  emit end_timestamp st se = Next st' →
  ¬ end_timestamp < screen_timestamp se ∧
  st' = {| ki := ki st; si := S (si st); cur_keys := cur_keys st;
           data_out := data_out st ++
             [ {| screen := screen_of se; key_codes := elements (cur_keys st);
                  timestamp := screen_timestamp se |} ] |}.
Proof.
  unfold emit. case_decide; [discriminate|].
  intros [= <-]. done.
Qed.

Lemma consume_Next (st : @state Screen) ke st' :
  consume st ke = Next st' →
  ki st' = S (ki st) ∧ si st' = si st ∧ data_out st' = data_out st ∧
  cur_keys st' = apply_transition (cur_keys st) ke ∧
  (down ke = false → key_code ke ∈ cur_keys st).
Proof.
  unfold consume, apply_transition, set_remove.
  destruct (down ke).
  - intros [= <-]. done.
  - case_decide; [|discriminate]. intros [= <-]. done.
Qed.

(** The cases of one iteration that goes on. *)
Lemma step_cases st st' :
  step st st' →
  ∃ se, screen_sequence !! si st = Some se ∧
    ((∃ ke, key_sequence !! ki st = Some ke ∧
            key_timestamp ke < screen_timestamp se ∧
            consume st ke = Next st') ∨
     ((∀ ke, key_sequence !! ki st = Some ke →
             ¬ key_timestamp ke < screen_timestamp se) ∧
      emit end_timestamp st se = Next st')).
Proof.
  intros [Hlt Hit]. unfold iteration in Hit.
  destruct (screen_sequence !! si st) as [se|] eqn:Hse; [|discriminate].
  exists se. split; [done|].
  destruct (key_sequence !! ki st) as [ke|] eqn:Hke.
  - case_decide.
    + left. eauto.
    + right. split; [|done]. by intros ? [= <-].
  - right. split; [|done]. by intros ? [=].
Qed.

Lemma step_remaining st st' : step st st' → remaining st = S (remaining st').
Proof.
  intros Hstep. destruct (step_cases _ _ Hstep) as (se & Hse & [(ke & Hke & _ & Hc)|[_ He]]).
  - apply consume_Next in Hc as (Hki & Hsi & _).
    apply lookup_lt_Some in Hke. unfold remaining. rewrite Hki, Hsi. lia.
  - apply emit_Next in He as [_ ->].
    apply lookup_lt_Some in Hse. unfold remaining. simpl. lia.
Qed.

(** The loop with enough fuel returns, and what it returns is how the loop
    is left from some state reached from the start state. *)
Lemma while_returns fuel st :
  (remaining st < fuel)%nat →
  ∃ st' r, rtc step st st' ∧ leaves st' r ∧ loop fuel st = Some r.
Proof.
  revert st. induction fuel as [|fuel IH]; intros st Hfuel; [lia|].
  simpl. case_decide as Hlt.
  - destruct (iter st) as [st1| |e] eqn:Hit.
    + assert (Hstep : step st st1) by done.
      pose proof (step_remaining _ _ Hstep).
      destruct (IH st1) as (st' & r & Hrtc & Hleave & Hloop); [lia|].
      exists st', r. split; [by eapply rtc_l|done].
    + exists st, (Ok (data_out st)). split; [done|]. split; [by apply leaves_break|done].
    + exists st, (Raise e). split; [done|]. split; [by apply leaves_throw|done].
  - exists st, (Ok (data_out st)). split; [done|]. split; [by apply leaves_exhausted|done].
Qed.

Lemma while_sound fuel st r :
  loop fuel st = Some r → ∃ st', rtc step st st' ∧ leaves st' r.
Proof.
  revert st. induction fuel as [|fuel IH]; intros st; [discriminate|].
  simpl. case_decide as Hlt.
  - destruct (iter st) as [st1| |e] eqn:Hit.
    + intros Hloop. destruct (IH _ Hloop) as (st' & Hrtc & Hleave).
      exists st'. split; [|done]. eapply rtc_l; [|done]. done.
    + intros [= <-]. exists st. split; [done|]. by apply leaves_break.
    + intros [= <-]. exists st. split; [done|]. by apply leaves_throw.
  - intros [= <-]. exists st. split; [done|]. by apply leaves_exhausted.
Qed.

(** The transition system is deterministic, so a state from which the loop
    is left fixes the result of every run that passes through it. *)
Lemma while_complete fuel st st' r :
  rtc step st st' → leaves st' r → (remaining st < fuel)%nat →
  loop fuel st = Some r.
Proof.
  intros Hrtc. revert fuel. induction Hrtc as [st|st st1 st' Hstep Hrtc IH]; intros fuel Hleave Hfuel.
  - destruct fuel as [|fuel]; [lia|]. simpl.
    destruct Hleave as [Hge|Hlt Hit|e Hlt Hit].
    + by rewrite decide_False.
    + by rewrite decide_True, Hit.
    + by rewrite decide_True, Hit.
  - destruct fuel as [|fuel]; [lia|]. simpl.
    pose proof (step_remaining _ _ Hstep).
    destruct Hstep as [Hlt Hit]. rewrite decide_True, Hit by done.
    apply IH; [done|lia].
Qed.

(** Invariants: a property of the start state kept by every iteration
    holds at every state from which the loop is left. *)
Lemma rtc_step_invariant (I : @state Screen → Prop) st st' :
  (∀ s s', I s → step s s' → I s') → I st → rtc step st st' → I st'.
Proof. intros Hpres Hst Hrtc. induction Hrtc; eauto. Qed.

Lemma step_bounds st st' :
  step st st' →
  (ki st ≤ length key_sequence)%nat ∧ (si st ≤ length screen_sequence)%nat →
  (ki st' ≤ length key_sequence)%nat ∧ (si st' ≤ length screen_sequence)%nat.
Proof.
  intros Hstep [Hk Hs].
  destruct (step_cases _ _ Hstep) as (se & Hse & [(ke & Hke & _ & Hc)|[_ He]]).
  - apply consume_Next in Hc as (Hki & Hsi & _).
    apply lookup_lt_Some in Hke. lia.
  - apply emit_Next in He as [_ ->].
    apply lookup_lt_Some in Hse. simpl. lia.
Qed.
End LoopFacts.

(** ** Facts on lists and on the spec-side key set *)

Lemma filter_all {A} (P : A → Prop) `{!∀ x, Decision (P x)} (l : list A) :
  Forall P l → filter P l = l.
Proof.
  induction 1 as [|x l Hx _ IH]; [done|].
  by rewrite filter_cons_True, IH.
Qed.

Lemma filter_none {A} (P : A → Prop) `{!∀ x, Decision (P x)} (l : list A) :
  Forall (λ x, ¬ P x) l → filter P l = [].
Proof.
  induction 1 as [|x l Hx _ IH]; [done|].
  by rewrite filter_cons_False.
Qed.

Lemma active_key_set_snoc events e :
  active_key_set (events ++ [e]) = apply_transition (active_key_set events) e.
Proof. unfold active_key_set. by rewrite fold_left_app. Qed.

(** In a time-ordered key sequence, the events strictly before [t] are the
    first [k] events as soon as those are before [t] and the next is not. *)
Lemma events_before_take (keys : list KeyEvent) (k : nat) (t : Q) :
  time_ordered key_timestamp keys →
  Forall (λ ke, key_timestamp ke < t) (take k keys) →
  (∀ ke, keys !! k = Some ke → ¬ key_timestamp ke < t) →
  filter (λ ke, key_timestamp ke < t) keys = take k keys.
Proof.
  intros Hord Hbefore Hnext.
  rewrite <- (take_drop k keys) at 1.
  rewrite filter_app, (filter_all _ _ Hbefore), filter_none; [by rewrite app_nil_r|].
  apply Forall_lookup_2. intros j b Hb. rewrite lookup_drop in Hb.
  destruct (lookup_lt_is_Some_2 keys k) as [a Ha].
  { apply lookup_lt_Some in Hb. lia. }
  intros Hlt. apply (Hnext a Ha).
  eapply Qle_lt_trans; [|exact Hlt].
  eapply (Hord k (k + j)%nat); [lia|done..].
Qed.

(** ** Invariants of the merge loop *)

Section Invariants.
Context {Screen : Type}.
Variable key_sequence : list KeyEvent.
Variable screen_sequence : list (ScreenEvent Screen).
Variable end_timestamp : Q.

Abbreviation step := (step key_sequence screen_sequence end_timestamp).
Abbreviation emitted_prefix := (emitted_prefix screen_sequence end_timestamp).
Abbreviation keys_replayed := (keys_replayed key_sequence screen_sequence).

Lemma emitted_prefix_initial : emitted_prefix initial.
Proof. unfold emitted_prefix. simpl. constructor. Qed.

Lemma emitted_prefix_step st st' :
  emitted_prefix st → step st st' → emitted_prefix st'.
Proof.
  unfold emitted_prefix. intros Hinv Hstep.
  destruct (step_cases _ _ _ _ _ Hstep) as (se & Hse & [(ke & Hke & _ & Hc)|[_ He]]).
  - apply consume_Next in Hc as (_ & -> & -> & _). done.
  - apply emit_Next in He as [Hcut ->]. simpl.
    rewrite (take_S_r _ _ _ Hse). apply Forall2_app; [done|].
    constructor; [|constructor]. split_and!; [done..|].
    by apply Qnot_lt_le.
Qed.

Hypothesis keys_ordered : time_ordered key_timestamp key_sequence.
Hypothesis screens_ordered : time_ordered screen_timestamp screen_sequence.

Lemma keys_replayed_initial : keys_replayed initial.
Proof.
  split_and!; simpl.
  - done.
  - intros. rewrite take_0. constructor.
  - constructor.
Qed.

Lemma keys_replayed_step st st' :
  keys_replayed st → step st st' → keys_replayed st'.
Proof.
  intros (Hcur & Hbefore & Hitems) Hstep.
  destruct (step_cases _ _ _ _ _ Hstep) as (se & Hse & [(ke & Hke & Hlt & Hc)|[Hnext He]]).
  - apply consume_Next in Hc as (Hki & Hsi & Hout & Hkeys & _).
    unfold keys_replayed. rewrite Hki, Hsi, Hout, Hkeys, (take_S_r _ _ _ Hke).
    split_and!.
    + by rewrite active_key_set_snoc, Hcur.
    + intros se' Hse'. assert (se' = se) as -> by congruence.
      apply Forall_app. split; [by apply Hbefore|]. by constructor.
    + done.
  - apply emit_Next in He as [_ ->]. unfold keys_replayed. simpl.
    split_and!.
    + done.
    + intros se' Hse'. specialize (Hbefore se Hse).
      eapply Forall_impl; [exact Hbefore|]. simpl. intros ke Hlt.
      eapply Qlt_le_trans; [exact Hlt|].
      eapply (screens_ordered (si st) (S (si st))); [lia|done..].
    + apply Forall_app. split; [done|]. constructor; [|constructor]. simpl.
      rewrite (events_before_take _ (ki st)); [|done|by apply Hbefore|done].
      rewrite list_to_set_elements_L. split; [done|]. apply NoDup_elements.
Qed.
End Invariants.

(** ** The merge as a whole *)

Section MergeFacts.
Context {Screen : Type}.
Implicit Types (self : Recorder) (key_sequence : list KeyEvent).
Implicit Types (screen_sequence : list (ScreenEvent Screen)).
Implicit Types (out : list (DatasetItem Screen)).

(** On a non-empty frame sequence the merge returns: the bound on the
    iterations is not reached, and the result is how the loop is left from
    a state reached from the start state. *)
Lemma to_training_data_run self key_sequence screen_sequence last_screen :
  last screen_sequence = Some last_screen →
  let end_timestamp := screen_timestamp last_screen - discard_tail_sec self in
  ∃ st r,
    reachable key_sequence screen_sequence end_timestamp st ∧
    leaves key_sequence screen_sequence end_timestamp st r ∧
    to_training_data self key_sequence screen_sequence = Some r.
Proof.
  intros Hlast end_timestamp. unfold to_training_data. rewrite Hlast.
  apply while_returns. unfold remaining. simpl. lia.
Qed.

(** The merge returns on every input. *)
Lemma to_training_data_returns self key_sequence screen_sequence :
  ∃ r, to_training_data self key_sequence screen_sequence = Some r.
Proof.
  destruct (last screen_sequence) as [last_screen|] eqn:Hlast.
  - destruct (to_training_data_run self key_sequence _ _ Hlast) as (st & r & _ & _ & Hr).
    eauto.
  - exists (Raise IndexError). unfold to_training_data. by rewrite Hlast.
Qed.

(** A returned dataset is the [data_out] of a reachable state. *)
Lemma to_training_data_Ok self key_sequence screen_sequence out :
  to_training_data self key_sequence screen_sequence = Some (Ok out) →
  ∃ last_screen st,
    last screen_sequence = Some last_screen ∧
    reachable key_sequence screen_sequence
      (screen_timestamp last_screen - discard_tail_sec self) st ∧
    out = data_out st.
Proof.
  unfold to_training_data.
  destruct (last screen_sequence) as [last_screen|] eqn:Hlast; [|discriminate].
  intros Hloop. apply while_sound in Hloop as (st & Hrtc & Hleave).
  exists last_screen, st. split; [done|]. split; [done|].
  by inversion Hleave.
Qed.

Lemma reachable_emitted_prefix key_sequence screen_sequence end_timestamp st :
  reachable key_sequence screen_sequence end_timestamp st →
  emitted_prefix screen_sequence end_timestamp st.
Proof.
  apply rtc_step_invariant.
  - intros s s'. apply emitted_prefix_step.
  - apply emitted_prefix_initial.
Qed.

Lemma reachable_keys_replayed key_sequence screen_sequence end_timestamp st :
  time_ordered key_timestamp key_sequence →
  time_ordered screen_timestamp screen_sequence →
  reachable key_sequence screen_sequence end_timestamp st →
  keys_replayed key_sequence screen_sequence st.
Proof.
  intros Hk Hs. apply rtc_step_invariant.
  - intros s s'. by apply keys_replayed_step.
  - apply keys_replayed_initial.
Qed.

Lemma reachable_bounds key_sequence screen_sequence end_timestamp st :
  reachable key_sequence screen_sequence end_timestamp st →
  (ki st ≤ length key_sequence)%nat ∧ (si st ≤ length screen_sequence)%nat.
Proof.
  apply (rtc_step_invariant _ _ _
           (λ s, (ki s ≤ length key_sequence)%nat ∧ (si s ≤ length screen_sequence)%nat)).
  - intros s s' Hb Hstep. by eapply step_bounds.
  - simpl. lia.
Qed.

(** Every emitted item is made from the frame at its own index, and that
    frame is not after the cutoff. *)
Lemma to_training_data_items self key_sequence screen_sequence last_screen out :
  last screen_sequence = Some last_screen →
  to_training_data self key_sequence screen_sequence = Some (Ok out) →
  ∀ i item, out !! i = Some item →
    ∃ se, screen_sequence !! i = Some se ∧
          item_of_frame (screen_timestamp last_screen - discard_tail_sec self) item se.
Proof.
  intros Hlast Hrun i item Hitem.
  apply to_training_data_Ok in Hrun as (l' & st & Hlast' & Hreach & ->).
  assert (l' = last_screen) as -> by congruence.
  apply reachable_emitted_prefix in Hreach.
  destruct (Forall2_lookup_l _ _ _ _ _ Hreach Hitem) as (se & Hse & Hof).
  apply lookup_take_Some in Hse as [Hse _]. eauto.
Qed.
End MergeFacts.

Section Exits.
Context {Screen : Type}.
Variable key_sequence : list KeyEvent.
Variable screen_sequence : list (ScreenEvent Screen).
Variable end_timestamp : Q.

Abbreviation unmatched_up := (unmatched_up key_sequence screen_sequence).

(** The loop is left by [break] only at a frame after the cutoff. *)
Lemma iteration_BreakLoop st :
  iteration key_sequence screen_sequence end_timestamp st = BreakLoop →
  ∃ se, screen_sequence !! si st = Some se ∧ end_timestamp < screen_timestamp se.
Proof.
  unfold iteration.
  destruct (screen_sequence !! si st) as [se|]; [|discriminate].
  assert (Hemit : emit end_timestamp st se = BreakLoop →
                  end_timestamp < screen_timestamp se).
  { unfold emit. by case_decide. }
  assert (Hcons : ∀ ke, consume st ke ≠ BreakLoop).
  { intros ke. unfold consume. destruct (down ke); [done|]. by destruct set_remove. }
  destruct (key_sequence !! ki st) as [ke|]; [case_decide as Hdue|];
    intros Hbrk; try by eauto.
  by apply Hcons in Hbrk.
Qed.

(** An iteration inside the loop raises exactly at an unmatched ['up'],
    and then raises [KeyError] for its key. *)
Lemma iteration_Throw st e :
  (si st < length screen_sequence)%nat →
  iteration key_sequence screen_sequence end_timestamp st = Throw e ↔
  ∃ key, e = KeyError key ∧ unmatched_up st key.
Proof.
  intros Hlt. destruct (lookup_lt_is_Some_2 _ _ Hlt) as [se Hse].
  unfold iteration, unmatched_up. rewrite Hse.
  assert (Hemit : ∀ e', emit end_timestamp st se ≠ Throw e').
  { intros e'. unfold emit. by case_decide. }
  split.
  - destruct (key_sequence !! ki st) as [ke|] eqn:Hke; [case_decide as Hdue|];
      intros H; try by apply Hemit in H.
    unfold consume, set_remove in H. destruct (down ke) eqn:Hdown; [done|].
    case_decide as Hin; [done|]. injection H as <-.
    exists (key_code ke). split; [done|]. by exists ke, se.
  - intros (key & -> & ke & se' & -> & [= <-] & Hdue & Hdown & <- & Hin).
    rewrite decide_True by done. unfold consume, set_remove.
    by rewrite Hdown, decide_False.
Qed.
End Exits.

(** ** Checking that a concrete sequence is time-ordered *)

Lemma time_ordered_check_sound {A : Type} (ts : A → Q) (l : list A) :
  time_ordered_check ts l = true → time_ordered ts l.
Proof.
  induction l as [|x l IH]; intros Hchk i j a b Hij Ha Hb.
  - by rewrite lookup_nil in Ha.
  - simpl in Hchk. apply andb_true_iff in Hchk as [Hhead Htail].
    destruct i as [|i]; simpl in Ha.
    + injection Ha as ->. destruct j as [|j]; simpl in Hb.
      * injection Hb as ->. apply Qle_refl.
      * rewrite forallb_forall in Hhead.
        apply list_elem_of_lookup_2, list_elem_of_In, Hhead in Hb.
        by apply bool_decide_eq_true in Hb.
    + destruct j as [|j]; [lia|]. simpl in Hb.
      eapply (IH Htail i j); [lia|done..].
Qed.

Example scenario_merge :
  to_training_data (recorder_discarding 0) scenario_keys scenario_screens
  = Some (Ok scenario_dataset).
Proof. vm_compute. reflexivity. Qed.

(** Every emitted item has the screen and the timestamp of the frame at
    its own index. *)
Lemma to_training_data_frame_at {Screen : Type} (self : Recorder)
    (key_sequence : list KeyEvent) (screen_sequence : list (ScreenEvent Screen))
    (out : list (DatasetItem Screen)) :
  to_training_data self key_sequence screen_sequence = Some (Ok out) →
  ∀ i item, out !! i = Some item →
    ∃ se, screen_sequence !! i = Some se ∧
          screen item = screen_of se ∧ timestamp item = screen_timestamp se.
Proof.
  intros Hrun i item Hitem.
  destruct (to_training_data_Ok _ _ _ _ Hrun) as (last_screen & _ & Hlast & _).
  destruct (to_training_data_items _ _ _ _ _ Hlast Hrun _ _ Hitem)
    as (se & Hse & Hs & Ht & _).
  eauto.
Qed.

(** ** The states a run visits, as a list *)

Section Trace.
Context {Screen : Type}.
Variable key_sequence : list KeyEvent.
Variable screen_sequence : list (ScreenEvent Screen).
Variable end_timestamp : Q.

Abbreviation trace := (trace key_sequence screen_sequence end_timestamp).
Abbreviation unmatched_up_check := (unmatched_up_check key_sequence screen_sequence).
Abbreviation all_ups_matched := (all_ups_matched key_sequence screen_sequence end_timestamp).

Lemma rtc_step_trace fuel st st' :
  rtc (step key_sequence screen_sequence end_timestamp) st st' →
  (remaining key_sequence screen_sequence st ≤ fuel)%nat →
  st' ∈ trace fuel st.
Proof.
  intros Hrtc. revert fuel.
  induction Hrtc as [st|st st1 st' Hstep Hrtc IH]; intros fuel Hfuel.
  - destruct fuel; simpl; apply list_elem_of_here.
  - pose proof (step_remaining _ _ _ _ _ Hstep).
    destruct fuel as [|fuel]; [lia|]. simpl.
    destruct Hstep as [Hlt Hit]. rewrite decide_True, Hit by done.
    apply list_elem_of_further, IH. lia.
Qed.

Lemma unmatched_up_check_complete st key :
  unmatched_up key_sequence screen_sequence st key → unmatched_up_check st = true.
Proof.
  intros (ke & se & Hke & Hse & Hdue & Hdown & <- & Hin).
  unfold unmatched_up_check. rewrite Hke, Hse, Hdown.
  by rewrite !bool_decide_eq_true_2.
Qed.

Lemma all_ups_matched_sound :
  all_ups_matched = true →
  ∀ st key, reachable key_sequence screen_sequence end_timestamp st →
            ¬ unmatched_up key_sequence screen_sequence st key.
Proof.
  unfold all_ups_matched. rewrite forallb_forall.
  intros Hall st key Hreach Hun.
  apply rtc_step_trace with (fuel := (length key_sequence + length screen_sequence)%nat)
    in Hreach; [|unfold remaining; simpl; lia].
  apply list_elem_of_In, Hall in Hreach.
  apply unmatched_up_check_complete in Hun. rewrite Hun in Hreach. done.
Qed.
End Trace.

(** ** Termination *)

Section Progress.
Context {Screen : Type}.
Variable key_sequence : list KeyEvent.
Variable screen_sequence : list (ScreenEvent Screen).
Variable end_timestamp : Q.

Abbreviation advances_or_exits :=
  (advances_or_exits key_sequence screen_sequence end_timestamp).
Abbreviation raises_KeyError :=
  (raises_KeyError key_sequence screen_sequence end_timestamp).

Lemma iteration_progress st :
  (si st < length screen_sequence)%nat →
  advances_or_exits st ∨ raises_KeyError st.
Proof.
  intros Hlt.
  destruct (iteration key_sequence screen_sequence end_timestamp st)
    as [st'| |e] eqn:Hit.
  - left. assert (Hstep : step key_sequence screen_sequence end_timestamp st st') by done.
    destruct (step_cases _ _ _ _ _ Hstep) as (se & Hse & [(ke & Hke & _ & Hc)|[_ He]]).
    + left. exists st'. rewrite Hit. split; [done|].
      apply consume_Next in Hc as (Hki & Hsi & _).
      apply lookup_lt_Some in Hke. split_and!; [done..|lia].
    + right. left. exists st'. rewrite Hit. split; [done|].
      apply emit_Next in He as [_ ->]. simpl. split_and!; [done..|lia].
  - left. right. right. unfold advances_or_exits. rewrite Hit. split; [done|].
    by apply iteration_BreakLoop in Hit.
  - right. pose proof Hit as Hthrow.
    apply iteration_Throw in Hthrow as (key & -> & Hun); [|done].
    by exists key.
Qed.
End Progress.

(** ** The rules of the loop, for running it by hand *)

Section Rules.
Context {Screen : Type}.
Variable key_sequence : list KeyEvent.
Variable screen_sequence : list (ScreenEvent Screen).
Variable end_timestamp : Q.

Lemma while_Next fuel st st' :
  (si st < length screen_sequence)%nat →
  iteration key_sequence screen_sequence end_timestamp st = Next st' →
  while key_sequence screen_sequence end_timestamp (S fuel) st
  = while key_sequence screen_sequence end_timestamp fuel st'.
Proof. intros Hlt Hit. simpl. by rewrite decide_True, Hit. Qed.

Lemma while_exhausted fuel st :
  ¬ (si st < length screen_sequence)%nat →
  while key_sequence screen_sequence end_timestamp (S fuel) st
  = Some (Ok (data_out st)).
Proof. intros Hge. simpl. by rewrite decide_False. Qed.

Lemma iteration_down st ke se :
  key_sequence !! ki st = Some ke → screen_sequence !! si st = Some se →
  key_timestamp ke < screen_timestamp se → down ke = true →
  iteration key_sequence screen_sequence end_timestamp st
  = Next {| ki := S (ki st); si := si st;
            cur_keys := {[ key_code ke ]} ∪ cur_keys st;
            data_out := data_out st |}.
Proof.
  intros Hke Hse Hdue Hdown. unfold iteration, consume.
  by rewrite Hke, Hse, decide_True, Hdown.
Qed.

Lemma iteration_up st ke se :
  key_sequence !! ki st = Some ke → screen_sequence !! si st = Some se →
  key_timestamp ke < screen_timestamp se → down ke = false →
  key_code ke ∈ cur_keys st →
  iteration key_sequence screen_sequence end_timestamp st
  = Next {| ki := S (ki st); si := si st;
            cur_keys := cur_keys st ∖ {[ key_code ke ]};
            data_out := data_out st |}.
Proof.
  intros Hke Hse Hdue Hdown Hin. unfold iteration, consume, set_remove.
  by rewrite Hke, Hse, decide_True, Hdown, decide_True.
Qed.

Lemma iteration_emit st se :
  screen_sequence !! si st = Some se →
  (∀ ke, key_sequence !! ki st = Some ke →
         ¬ key_timestamp ke < screen_timestamp se) →
  ¬ end_timestamp < screen_timestamp se →
  iteration key_sequence screen_sequence end_timestamp st
  = Next {| ki := ki st; si := S (si st); cur_keys := cur_keys st;
            data_out := data_out st ++
              [ {| screen := screen_of se; key_codes := elements (cur_keys st);
                   timestamp := screen_timestamp se |} ] |}.
Proof.
  intros Hse Hnot Hcut. unfold iteration, emit. rewrite Hse.
  destruct (key_sequence !! ki st) as [ke|] eqn:Hke.
  - rewrite decide_False by eauto. by rewrite decide_False.
  - by rewrite decide_False.
Qed.
End Rules.

Ltac q_false := let H := fresh in intros H; vm_compute in H; discriminate H.

Ltac run_emit :=
  erewrite while_Next;
  [ | simpl; lia
    | eapply iteration_emit;
      [ reflexivity | intros ? [= <-]; q_false | q_false ] ];
  cbn [ki si cur_keys data_out screen_of screen_timestamp key_code app].

Ltac run_emit_no_key :=
  erewrite while_Next;
  [ | simpl; lia
    | eapply iteration_emit; [ reflexivity | intros ? [=] | q_false ] ];
  cbn [ki si cur_keys data_out screen_of screen_timestamp key_code app].

Ltac run_down :=
  erewrite while_Next;
  [ | simpl; lia
    | eapply iteration_down; [ reflexivity | reflexivity | reflexivity | reflexivity ] ];
  cbn [ki si cur_keys data_out screen_of screen_timestamp key_code app].

Ltac run_up :=
  erewrite while_Next;
  [ | simpl; lia
    | eapply iteration_up;
      [ reflexivity | reflexivity | reflexivity | reflexivity | simpl; set_solver ] ];
  cbn [ki si cur_keys data_out screen_of screen_timestamp key_code app].

(** ** The boundaries of the tail discard *)

(** No item is emitted when already the first frame is after the cutoff. *)
Lemma emitted_prefix_nil {Screen : Type} (screen_sequence : list (ScreenEvent Screen))
    (end_timestamp : Q) (first_screen : ScreenEvent Screen) (st : @state Screen) :
  head screen_sequence = Some first_screen →
  end_timestamp < screen_timestamp first_screen →
  emitted_prefix screen_sequence end_timestamp st →
  data_out st = [].
Proof.
  intros Hhead Hcut Hinv.
  destruct (data_out st) as [|item items] eqn:Hout; [done|].
  unfold emitted_prefix in Hinv.
  assert (Hitem : data_out st !! 0%nat = Some item) by by rewrite Hout.
  destruct (Forall2_lookup_l _ _ _ _ _ Hinv Hitem) as (se & Hse & _ & _ & Hle).
  apply lookup_take_Some in Hse as [Hse _].
  rewrite head_lookup in Hhead. assert (se = first_screen) as -> by congruence.
  by apply Qle_not_lt in Hle.
Qed.

(** ** The merge over float arithmetic *)

Section FloatMergeFacts.
Context {Screen : Type}.
Variable fsub : Q → Q → Q.
Implicit Types (self : Recorder) (key_sequence : list KeyEvent).
Implicit Types (screen_sequence : list (ScreenEvent Screen)).
Implicit Types (out : list (DatasetItem Screen)).

(** With the exact subtraction it is the function of the first part. *)
Lemma to_training_data_with_exact self key_sequence screen_sequence :
  to_training_data_with Qminus self key_sequence screen_sequence
  = to_training_data self key_sequence screen_sequence.
Proof. reflexivity. Qed.

Lemma to_training_data_with_run self key_sequence screen_sequence last_screen :
  last screen_sequence = Some last_screen →
  let end_timestamp := fsub (screen_timestamp last_screen) (discard_tail_sec self) in
  ∃ st r,
    reachable key_sequence screen_sequence end_timestamp st ∧
    leaves key_sequence screen_sequence end_timestamp st r ∧
    to_training_data_with fsub self key_sequence screen_sequence = Some r.
Proof.
  intros Hlast end_timestamp. unfold to_training_data_with. rewrite Hlast.
  apply while_returns. unfold remaining. simpl. lia.
Qed.

(** A returned dataset is the [data_out] of a reachable state at which the
    frames are exhausted or the current frame is after the cutoff. *)
Lemma to_training_data_with_Ok_exit self key_sequence screen_sequence last_screen out :
  last screen_sequence = Some last_screen →
  to_training_data_with fsub self key_sequence screen_sequence = Some (Ok out) →
  let end_timestamp := fsub (screen_timestamp last_screen) (discard_tail_sec self) in
  ∃ st, reachable key_sequence screen_sequence end_timestamp st ∧
        out = data_out st ∧
        length out = si st ∧
        (si st ≤ length screen_sequence)%nat ∧
        ∀ se, screen_sequence !! si st = Some se → end_timestamp < screen_timestamp se.
Proof.
  intros Hlast Hrun end_timestamp. unfold to_training_data_with in Hrun.
  rewrite Hlast in Hrun. apply while_sound in Hrun as (st & Hreach & Hleave).
  exists st. split; [done|].
  pose proof (reachable_emitted_prefix _ _ _ _ Hreach) as Hinv.
  pose proof (reachable_bounds _ _ _ _ Hreach) as [_ Hsi].
  assert (Hlen : length (data_out st) = si st).
  { rewrite (Forall2_length _ _ _ Hinv), length_take. lia. }
  inversion Hleave as [Hge|Hlt Hit|e Hlt Hit]; subst.
  - split_and!; [done..|]. intros se Hse. apply lookup_lt_Some in Hse. lia.
  - split_and!; [done..|]. intros se Hse.
    apply iteration_BreakLoop in Hit as (se' & Hse' & Hcut).
    assert (se' = se) as -> by congruence. exact Hcut.
Qed.

Lemma to_training_data_with_last self key_sequence screen_sequence out :
  to_training_data_with fsub self key_sequence screen_sequence = Some (Ok out) →
  ∃ last_screen, last screen_sequence = Some last_screen.
Proof.
  unfold to_training_data_with.
  destruct (last screen_sequence) as [last_screen|]; [by eauto|discriminate].
Qed.

(** Every emitted item has the screen and the timestamp of the frame at
    its own index. *)
Lemma to_training_data_with_frame_at self key_sequence screen_sequence out :
  to_training_data_with fsub self key_sequence screen_sequence = Some (Ok out) →
  ∀ i item, out !! i = Some item →
    ∃ se, screen_sequence !! i = Some se ∧
          screen item = screen_of se ∧ timestamp item = screen_timestamp se.
Proof.
  intros Hrun i item Hitem.
  destruct (to_training_data_with_last _ _ _ _ Hrun) as [last_screen Hlast].
  destruct (to_training_data_with_Ok_exit _ _ _ _ _ Hlast Hrun)
    as (st & Hreach & -> & _).
  apply reachable_emitted_prefix in Hreach.
  destruct (Forall2_lookup_l _ _ _ _ _ Hreach Hitem) as (se & Hse & Hs & Ht & _).
  apply lookup_take_Some in Hse as [Hse _]. eauto.
Qed.
End FloatMergeFacts.

(** * The claims *)

(** ** The merge *)

(** C1. On time-ordered input sequences, every item of the merge output
    carries, as a set, the active key set obtained by applying in arrival
    order exactly the key events whose timestamp is strictly less than the
    timestamp of the item's frame, and no event at or after it. *)
Theorem merged_keys_are_events_before_frame {Screen : Type} (self : Recorder)
    (key_sequence : list KeyEvent) (screen_sequence : list (ScreenEvent Screen))
    (out : list (DatasetItem Screen)) :
  time_ordered key_timestamp key_sequence →
  time_ordered screen_timestamp screen_sequence →
  to_training_data self key_sequence screen_sequence = Some (Ok out) →
  ∀ i item, out !! i = Some item →
    ∃ se, screen_sequence !! i = Some se ∧
          timestamp item = screen_timestamp se ∧
          list_to_set (key_codes item) =
            active_key_set
              (filter (λ ke, key_timestamp ke < screen_timestamp se) key_sequence) ∧
          NoDup (key_codes item).
Proof.
  intros Hkeys Hscreens Hrun i item Hitem.
  destruct (to_training_data_frame_at _ _ _ _ Hrun _ _ Hitem) as (se & Hse & _ & Ht).
  exists se. split; [done|]. split; [done|]. rewrite <- Ht.
  apply to_training_data_Ok in Hrun as (l' & st & _ & Hreach & ->).
  apply reachable_keys_replayed in Hreach as (_ & _ & Hall); [|done..].
  by apply (Forall_lookup_1 _ _ _ _ Hall Hitem).
Qed.

Lemma merged_keys_are_events_before_frame_witness :
  time_ordered key_timestamp scenario_keys ∧
  time_ordered screen_timestamp scenario_screens ∧
  to_training_data (recorder_discarding 0) scenario_keys scenario_screens
    = Some (Ok scenario_dataset) ∧
  scenario_dataset !! 2%nat = Some (mkDatasetItem 2%nat ["k"%string] 2) ∧
  ∃ se, scenario_screens !! 2%nat = Some se ∧
        2 = screen_timestamp se ∧
        list_to_set ["k"%string] =
          active_key_set
            (filter (λ ke, key_timestamp ke < screen_timestamp se) scenario_keys) ∧
        NoDup ["k"%string].
Proof.
  assert (Hk : time_ordered key_timestamp scenario_keys)
    by (apply time_ordered_check_sound; vm_compute; reflexivity).
  assert (Hs : time_ordered screen_timestamp scenario_screens)
    by (apply time_ordered_check_sound; vm_compute; reflexivity).
  split; [exact Hk|]. split; [exact Hs|].
  split; [vm_compute; reflexivity|]. split; [reflexivity|].
  apply (merged_keys_are_events_before_frame (recorder_discarding 0)
           scenario_keys scenario_screens scenario_dataset Hk Hs
           scenario_merge 2%nat (mkDatasetItem 2%nat ["k"%string] 2)).
  reflexivity.
Defined.

(** C2. The code does not return an empty dataset for the empty frame
    sequence: computing the cutoff from [screen_sequence[-1]] raises
    [IndexError], whatever the key events are. *)
Theorem empty_screen_sequence_raises {Screen : Type} (self : Recorder)
    (key_sequence : list KeyEvent) :
  to_training_data (Screen := Screen) self key_sequence []
  = Some (Raise IndexError).
Proof. reflexivity. Qed.

(** ** The frame rate of the exported video *)

(** C3. The code does not divide the number of intervals between the items
    but the number of items: for the five items of the scenario, one second
    apart, line 139 computes 5 / 4 frames per second in binary64, where
    (count - 1) / (timestamp_last - timestamp_first) is 4 / 4. *)
Theorem avg_fps_divides_the_count :
  (2 ≤ length scenario_dataset)%nat ∧
  ∃ fps, avg_fps_with float_sub float_div scenario_dataset = Ok fps ∧
         fps == 5 / 4 ∧
         ¬ fps == (inject_Z (Z.of_nat (length scenario_dataset)) - 1) / (4 - 0).
Proof.
  split; [simpl; lia|].
  exists (float_div (inject_Z 5) (float_sub 4 0)).
  split; [vm_compute; reflexivity|].
  split; [vm_compute; reflexivity|]. vm_compute. discriminate.
Qed.

(** C4. The rate computation is not guarded for a dataset of one item: the
    first and the last item are the same, the time between them is zero, and
    the division raises [ZeroDivisionError]. The test of [record] for an
    empty dataset does not cover this case. *)
Theorem single_item_rate_raises {Screen : Type} (item : DatasetItem Screen) :
  avg_fps [item] = Raise ZeroDivisionError ∧
  export_rate [item] = Raise ZeroDivisionError.
Proof.
  assert (Hfps : avg_fps [item] = Raise ZeroDivisionError).
  { unfold avg_fps. simpl. destruct Qeq_dec as [|Hne]; [done|].
    exfalso. apply Hne. ring. }
  split; [done|]. unfold export_rate. simpl. by rewrite Hfps.
Qed.

(** A session that runs into it: four frames one second apart and the
    default three seconds of tail discarded leave one item. *)
Example single_item_session :
  to_training_data (recorder_discarding 3) scenario_keys (take 4 scenario_screens)
  = Some (Ok [ mkDatasetItem 0%nat [] 0 ]) ∧
  export_rate [ mkDatasetItem 0%nat [] 0 ] = Raise ZeroDivisionError.
Proof. split; vm_compute; reflexivity. Qed.

(** ** The merge, continued *)




(** The length of the session against the tail does not decide it: the
    session of [close_screens] lasts less than the tail of [close_recorder],
    and the float subtraction puts the cutoff on the first frame, which is
    retained. *)
Example close_session_keeps_first_frame :
  1 - round64 0.9 < discard_tail_sec close_recorder ∧
  to_training_data_with float_sub close_recorder [] close_screens
  = Some (Ok [ mkDatasetItem 0%nat [] (round64 0.9) ]).
Proof. split; vm_compute; reflexivity. Qed.

(** C6. The length of the merge output is at most the number of frames whose
    timestamp is at or before the cutoff, what the subtraction of line 109
    returns for the last frame's timestamp and the tail to discard. *)
Theorem merge_output_length_bound {Screen : Type} (fsub : Q → Q → Q) (self : Recorder)
    (key_sequence : list KeyEvent) (screen_sequence : list (ScreenEvent Screen))
    (last_screen : ScreenEvent Screen) (out : list (DatasetItem Screen)) :
  last screen_sequence = Some last_screen →
  to_training_data_with fsub self key_sequence screen_sequence = Some (Ok out) →
  (length out ≤
   length (filter (λ se, (screen_timestamp se <=
                          fsub (screen_timestamp last_screen) (discard_tail_sec self))%Q)
                  screen_sequence))%nat.
Proof.
  intros Hlast Hrun.
  destruct (to_training_data_with_Ok_exit _ _ _ _ _ _ Hlast Hrun)
    as (st & Hreach & -> & _).
  apply reachable_emitted_prefix in Hreach. unfold emitted_prefix in Hreach.
  rewrite (Forall2_length _ _ _ Hreach).
  rewrite <- (take_drop (si st) screen_sequence) at 2.
  rewrite filter_app, length_app, filter_all; [lia|].
  apply Forall_lookup_2. intros i se Hse.
  destruct (Forall2_lookup_r _ _ _ _ _ Hreach Hse) as (item & _ & _ & _ & Hcut).
  done.
Qed.

Lemma merge_output_length_bound_witness :
  last close_screens = Some (mkScreenEvent 1%nat 1) ∧
  to_training_data_with float_sub close_recorder [] close_screens
    = Some (Ok [ mkDatasetItem 0%nat [] (round64 0.9) ]) ∧
  (length [ mkDatasetItem 0%nat [] (round64 0.9) ] ≤
   length (filter (λ se, (screen_timestamp se
                          <= float_sub 1 (discard_tail_sec close_recorder))%Q)
                  close_screens))%nat.
Proof.
  assert (Hrun : to_training_data_with float_sub close_recorder [] close_screens
                 = Some (Ok [ mkDatasetItem 0%nat [] (round64 0.9) ]))
    by (vm_compute; reflexivity).
  split; [reflexivity|]. split; [exact Hrun|].
  exact (merge_output_length_bound float_sub close_recorder [] close_screens
           (mkScreenEvent 1%nat 1) _ eq_refl Hrun).
Defined.

(** C7. Frames at t = 0, 1, 2, 3, 4, one key pressed at t = 0.5 and released
    at t = 2.5, nothing discarded: the merge outputs five items, whose key
    sets are empty at t = 0, the key at t = 1 and at t = 2, and empty at
    t = 3 and at t = 4. *)
Theorem scenario_press_and_release {Screen : Type} (s0 s1 s2 s3 s4 : Screen)
    (k : string) (delay : Q) :
  to_training_data {| discard_tail_sec := 0; key_recording_delay_sec := delay |}
    [ mkKeyEvent k 0.5 true; mkKeyEvent k 2.5 false ]
    [ mkScreenEvent s0 0; mkScreenEvent s1 1; mkScreenEvent s2 2;
      mkScreenEvent s3 3; mkScreenEvent s4 4 ]
  = Some (Ok [ mkDatasetItem s0 [] 0; mkDatasetItem s1 [k] 1;
               mkDatasetItem s2 [k] 2; mkDatasetItem s3 [] 3;
               mkDatasetItem s4 [] 4 ]).
Proof.
  unfold to_training_data.
  cbn [last length Nat.add discard_tail_sec screen_timestamp]. unfold initial.
  run_emit. run_down. run_emit. run_emit. run_up.
  run_emit_no_key. run_emit_no_key.
  rewrite while_exhausted by (simpl; lia).
  cbn [data_out].
  assert (Hheld : elements ({[k]} ∪ ∅ : gset string) = [k]).
  { rewrite union_empty_r_L. apply elements_singleton. }
  assert (Hreleased : (({[k]} ∪ ∅) ∖ {[k]} : gset string) = ∅).
  { rewrite union_empty_r_L. apply difference_diag_L. }
  by rewrite Hreleased, Hheld, elements_empty.
Qed.

(** C8. The merge removes a key on an ['up'] event without checking
    membership. Whenever a run reaches an ['up'] event that is due (strictly
    before the current frame) while its key is not in the active set, the
    merge raises [KeyError] for that key instead of ignoring the event; and
    when no run does, the merge returns a dataset. *)
Theorem unmatched_up_raises_KeyError {Screen : Type} (self : Recorder)
    (key_sequence : list KeyEvent) (screen_sequence : list (ScreenEvent Screen))
    (last_screen : ScreenEvent Screen) :
  last screen_sequence = Some last_screen →
  let end_timestamp := screen_timestamp last_screen - discard_tail_sec self in
  (∀ st key,
     reachable key_sequence screen_sequence end_timestamp st →
     unmatched_up key_sequence screen_sequence st key →
     to_training_data self key_sequence screen_sequence = Some (Raise (KeyError key))) ∧
  ((∀ st key,
      reachable key_sequence screen_sequence end_timestamp st →
      ¬ unmatched_up key_sequence screen_sequence st key) →
   ∃ out, to_training_data self key_sequence screen_sequence = Some (Ok out)).
Proof.
  intros Hlast end_timestamp. split.
  - intros st key Hreach Hun.
    assert (Hlt : (si st < length screen_sequence)%nat).
    { destruct Hun as (_ & se & _ & Hse & _). by apply lookup_lt_Some in Hse. }
    unfold to_training_data. rewrite Hlast.
    apply (while_complete _ _ _ _ initial st); [done| |unfold remaining; simpl; lia].
    apply leaves_throw; [done|]. apply iteration_Throw; [done|]. eauto.
  - intros Hmatched.
    destruct (to_training_data_run self key_sequence _ _ Hlast) as (st & r & Hreach & Hleave & Hr).
    destruct Hleave as [Hge|Hlt Hit|e Hlt Hit]; [by eauto..|].
    apply iteration_Throw in Hit as (key & _ & Hun); [|done].
    by apply Hmatched in Hun.
Qed.

Lemma unmatched_up_raises_KeyError_witness :
  (to_training_data (recorder_discarding 0)
     [mkKeyEvent "k" 0 false] [mkScreenEvent 0%nat 1]
   = Some (Raise (KeyError "k"))) ∧
  (∃ out, to_training_data (recorder_discarding 0) scenario_keys scenario_screens
          = Some (Ok out)).
Proof.
  split.
  - refine (proj1 (unmatched_up_raises_KeyError (recorder_discarding 0)
                     [mkKeyEvent "k" 0 false] [mkScreenEvent 0%nat 1]
                     (mkScreenEvent 0%nat 1) eq_refl) initial "k"%string _ _).
    + apply rtc_refl.
    + exists (mkKeyEvent "k" 0 false), (mkScreenEvent 0%nat 1).
      split_and!; [reflexivity|reflexivity|reflexivity|reflexivity|reflexivity|].
      apply not_elem_of_empty.
  - refine (proj2 (unmatched_up_raises_KeyError (recorder_discarding 0)
                     scenario_keys scenario_screens
                     (mkScreenEvent 4%nat 4) eq_refl) _).
    apply all_ups_matched_sound. vm_compute. reflexivity.
Defined.

(** C9. The merge output is an in-order prefix of the frame sequence: the
    i-th item has the screen and the timestamp of the i-th frame, so no
    retained frame is skipped, duplicated or reordered, and the output
    timestamps never decrease when the frame timestamps never do. *)
Theorem merge_output_is_frame_prefix {Screen : Type} (self : Recorder)
    (key_sequence : list KeyEvent) (screen_sequence : list (ScreenEvent Screen))
    (out : list (DatasetItem Screen)) :
  to_training_data self key_sequence screen_sequence = Some (Ok out) →
  (length out ≤ length screen_sequence)%nat ∧
  (∀ i item, out !! i = Some item →
     ∃ se, screen_sequence !! i = Some se ∧
           screen item = screen_of se ∧ timestamp item = screen_timestamp se) ∧
  (time_ordered screen_timestamp screen_sequence → time_ordered timestamp out).
Proof.
  intros Hrun.
  pose proof (to_training_data_frame_at _ _ _ _ Hrun) as Hitems.
  split_and!.
  - destruct (decide (length out ≤ length screen_sequence)%nat) as [|Hgt]; [done|].
    destruct (lookup_lt_is_Some_2 out (length screen_sequence)) as [item Hitem]; [lia|].
    destruct (Hitems _ _ Hitem) as (se & Hse & _).
    apply lookup_lt_Some in Hse. lia.
  - done.
  - intros Hord i j a b Hij Ha Hb.
    destruct (Hitems _ _ Ha) as (sa & Hsa & _ & ->).
    destruct (Hitems _ _ Hb) as (sb & Hsb & _ & ->).
    by eapply Hord.
Qed.

Lemma merge_output_is_frame_prefix_witness :
  to_training_data (recorder_discarding 0) scenario_keys scenario_screens
    = Some (Ok scenario_dataset) ∧
  (length scenario_dataset ≤ length scenario_screens)%nat ∧
  (∀ i item, scenario_dataset !! i = Some item →
     ∃ se, scenario_screens !! i = Some se ∧
           screen item = screen_of se ∧ timestamp item = screen_timestamp se) ∧
  (time_ordered screen_timestamp scenario_screens →
   time_ordered timestamp scenario_dataset).
Proof.
  split; [vm_compute; reflexivity|].
  apply (merge_output_is_frame_prefix (recorder_discarding 0) scenario_keys).
  vm_compute; reflexivity.
Defined.

(** C10, as stated, fails: with one ['up'] event at t = 0 for a key that was
    never pressed and one frame at t = 1, the first iteration raises
    [KeyError]; it advances neither cursor and does not exit at the cutoff. *)
Lemma iteration_may_raise_counterexample :
  let key_sequence := [mkKeyEvent "k" 0 false] in
  let screen_sequence := [mkScreenEvent 0%nat 1] in
  let end_timestamp := 1 - 0 in
  reachable key_sequence screen_sequence end_timestamp initial ∧
  (si (@initial nat) < length screen_sequence)%nat ∧
  iteration key_sequence screen_sequence end_timestamp initial = Throw (KeyError "k") ∧
  ¬ advances_or_exits key_sequence screen_sequence end_timestamp initial.
Proof.
  intros key_sequence screen_sequence end_timestamp.
  assert (Hit : iteration key_sequence screen_sequence end_timestamp initial
                = Throw (KeyError "k")) by (vm_compute; reflexivity).
  split; [apply rtc_refl|]. split; [simpl; lia|]. split; [exact Hit|].
  unfold advances_or_exits. rewrite Hit.
  intros [(st' & Hnext & _)|[(st' & Hnext & _)|[Hbrk _]]]; discriminate.
Qed.

(** C10, amended. On a non-empty frame sequence the merge loop terminates,
    within [len(key_sequence) + len(screen_sequence) + 1] evaluations of its
    test: both cursors stay within their sequence lengths, and each
    iteration either advances the key cursor, advances the frame cursor,
    exits at the cutoff, or raises [KeyError] at an unmatched ['up']. *)
Theorem merge_loop_terminates {Screen : Type} (self : Recorder)
    (key_sequence : list KeyEvent) (screen_sequence : list (ScreenEvent Screen))
    (last_screen : ScreenEvent Screen) :
  last screen_sequence = Some last_screen →
  let end_timestamp := screen_timestamp last_screen - discard_tail_sec self in
  (∃ r, to_training_data self key_sequence screen_sequence = Some r ∧
        ∀ fuel, (length key_sequence + length screen_sequence < fuel)%nat →
                while key_sequence screen_sequence end_timestamp fuel initial = Some r) ∧
  (∀ st, reachable key_sequence screen_sequence end_timestamp st →
         (ki st ≤ length key_sequence)%nat ∧ (si st ≤ length screen_sequence)%nat) ∧
  (∀ st, reachable key_sequence screen_sequence end_timestamp st →
         (si st < length screen_sequence)%nat →
         advances_or_exits key_sequence screen_sequence end_timestamp st ∨
         raises_KeyError key_sequence screen_sequence end_timestamp st).
Proof.
  intros Hlast end_timestamp. split_and!.
  - destruct (to_training_data_run self key_sequence _ _ Hlast)
      as (st & r & Hreach & Hleave & Hr).
    exists r. split; [done|]. intros fuel Hfuel.
    apply (while_complete _ _ _ _ initial st); [done..|unfold remaining; simpl; lia].
  - intros st. apply reachable_bounds.
  - intros st _. apply iteration_progress.
Qed.

Lemma merge_loop_terminates_witness :
  last scenario_screens = Some (mkScreenEvent 4%nat 4) ∧
  ∃ r, to_training_data (recorder_discarding 0) scenario_keys scenario_screens = Some r ∧
       ∀ fuel, (length scenario_keys + length scenario_screens < fuel)%nat →
               while scenario_keys scenario_screens (4 - 0) fuel initial = Some r.
Proof.
  split; [reflexivity|].
  exact (proj1 (merge_loop_terminates (recorder_discarding 0) scenario_keys
                  scenario_screens (mkScreenEvent 4%nat 4) eq_refl)).
Defined.

(** * Further properties of the merge *)

Lemma strictly_time_ordered_check_sound {A : Type} (ts : A → Q) (l : list A) :
  strictly_time_ordered_check ts l = true → strictly_time_ordered ts l.
Proof.
  induction l as [|x l IH]; intros Hchk i j a b Hij Ha Hb.
  - by rewrite lookup_nil in Ha.
  - simpl in Hchk. apply andb_true_iff in Hchk as [Hhead Htail].
    destruct j as [|j]; [lia|]. simpl in Hb.
    destruct i as [|i]; simpl in Ha.
    + injection Ha as ->. rewrite forallb_forall in Hhead.
      apply list_elem_of_lookup_2, list_elem_of_In, Hhead in Hb.
      by apply bool_decide_eq_true in Hb.
    + eapply (IH Htail i j); [lia|done..].
Qed.

Section Consumed.
Context {Screen : Type}.
Variable key_sequence : list KeyEvent.
Variable screen_sequence : list (ScreenEvent Screen).
Variable end_timestamp : Q.

Lemma keys_consumed_step (st st' : @state Screen) :
  keys_consumed key_sequence st →
  step key_sequence screen_sequence end_timestamp st st' →
  keys_consumed key_sequence st'.
Proof.
  intros [Hcur Hitems] Hstep.
  destruct (step_cases _ _ _ _ _ Hstep) as (se & Hse & [(ke & Hke & _ & Hc)|[_ He]]).
  - apply consume_Next in Hc as (Hki & _ & Hout & Hkeys & _).
    unfold keys_consumed. rewrite Hki, Hout, Hkeys, (take_S_r _ _ _ Hke).
    split; [|done]. by rewrite active_key_set_snoc, Hcur.
  - apply emit_Next in He as [_ ->]. unfold keys_consumed. simpl.
    split; [done|]. apply Forall_app. split; [done|].
    constructor; [|constructor]. exists (ki st). simpl. by rewrite Hcur.
Qed.

Lemma reachable_keys_consumed (st : @state Screen) :
  reachable key_sequence screen_sequence end_timestamp st →
  keys_consumed key_sequence st.
Proof.
  apply rtc_step_invariant.
  - intros s s'. apply keys_consumed_step.
  - split; simpl; [done|constructor].
Qed.
End Consumed.

(** ** The raising replay and the spec's replay *)

Lemma replay_snoc events e : replay (events ++ [e]) = replay_event (replay events) e.
Proof. unfold replay. by rewrite fold_left_app. Qed.

Lemma replay_Raise events x : fold_left replay_event events (Raise x) = Raise x.
Proof. induction events as [|e events IH]; [done|]. simpl. apply IH. Qed.

Lemma replay_app_Ok events rest held :
  replay (events ++ rest) = Ok held → ∃ held', replay events = Ok held'.
Proof.
  unfold replay. rewrite fold_left_app.
  destruct (fold_left replay_event events (Ok ∅)) as [held'|x]; [by eauto|].
  by rewrite replay_Raise.
Qed.

Lemma replay_Ok_active_key_set events held :
  replay events = Ok held → held = active_key_set events.
Proof.
  revert held. induction events as [|e events IH] using rev_ind; intros held.
  - by intros [= <-].
  - rewrite replay_snoc, active_key_set_snoc.
    destruct (replay events) as [held'|x] eqn:Hre; [|discriminate].
    rewrite <- (IH held' eq_refl). unfold replay_event, apply_transition, set_remove.
    destruct (down e); [by intros [= <-]|].
    case_decide; [by intros [= <-]|discriminate].
Qed.

(** When the raising replay of the whole sequence succeeds, every ['up']
    finds its key held by the events before it. *)
Lemma replay_Ok_up_held events held n e :
  replay events = Ok held → events !! n = Some e → down e = false →
  key_code e ∈ active_key_set (take n events).
Proof.
  intros Hre He Hdown.
  rewrite <- (take_drop (S n) events), (take_S_r _ _ _ He) in Hre.
  apply replay_app_Ok in Hre as [held' Hre]. rewrite replay_snoc in Hre.
  destruct (replay (take n events)) as [held0|x] eqn:Hpre; [|discriminate].
  apply replay_Ok_active_key_set in Hpre as <-.
  unfold replay_event, set_remove in Hre. rewrite Hdown in Hre.
  by case_decide.
Qed.

Lemma active_key_set_from_down events key :
  key ∈ active_key_set events →
  ∃ e, e ∈ events ∧ down e = true ∧ key_code e = key.
Proof.
  induction events as [|e events IH] using rev_ind.
  - unfold active_key_set. simpl. set_solver.
  - rewrite active_key_set_snoc. unfold apply_transition.
    destruct (down e) eqn:Hdown.
    + intros [Hin%elem_of_singleton|Hin]%elem_of_union.
      * exists e. split; [|done]. apply elem_of_app. right. apply list_elem_of_here.
      * destruct (IH Hin) as (e' & He' & Hd & Hk). exists e'.
        split; [|done]. apply elem_of_app. by left.
    + intros [Hin _]%elem_of_difference.
      destruct (IH Hin) as (e' & He' & Hd & Hk). exists e'.
      split; [|done]. apply elem_of_app. by left.
Qed.

(** ** Where and how the merge stops *)

(** A returned dataset is the [data_out] of a reachable state at which the
    frames are exhausted or the current frame is after the cutoff. *)
Lemma to_training_data_Ok_exit {Screen : Type} (self : Recorder)
    (key_sequence : list KeyEvent) (screen_sequence : list (ScreenEvent Screen))
    (last_screen : ScreenEvent Screen) (out : list (DatasetItem Screen)) :
  last screen_sequence = Some last_screen →
  to_training_data self key_sequence screen_sequence = Some (Ok out) →
  let end_timestamp := screen_timestamp last_screen - discard_tail_sec self in
  ∃ st, reachable key_sequence screen_sequence end_timestamp st ∧
        out = data_out st ∧
        length out = si st ∧
        (si st ≤ length screen_sequence)%nat ∧
        ∀ se, screen_sequence !! si st = Some se → end_timestamp < screen_timestamp se.
Proof.
  intros Hlast Hrun end_timestamp. unfold to_training_data in Hrun.
  rewrite Hlast in Hrun. apply while_sound in Hrun as (st & Hreach & Hleave).
  exists st. split; [done|].
  pose proof (reachable_emitted_prefix _ _ _ _ Hreach) as Hinv.
  pose proof (reachable_bounds _ _ _ _ Hreach) as [_ Hsi].
  assert (Hlen : length (data_out st) = si st).
  { rewrite (Forall2_length _ _ _ Hinv), length_take. lia. }
  inversion Hleave as [Hge|Hlt Hit|e Hlt Hit]; subst.
  - split_and!; [done..|]. intros se Hse. apply lookup_lt_Some in Hse. lia.
  - split_and!; [done..|]. intros se Hse.
    apply iteration_BreakLoop in Hit as (se' & Hse' & Hcut).
    assert (se' = se) as -> by congruence. exact Hcut.
Qed.

(** X1. Without key events the merge of a non-empty frame sequence returns
    a dataset, and every item of it has an empty key list. *)
Theorem merge_without_key_events {Screen : Type} (self : Recorder)
    (screen_sequence : list (ScreenEvent Screen)) (last_screen : ScreenEvent Screen) :
  last screen_sequence = Some last_screen →
  ∃ out, to_training_data self [] screen_sequence = Some (Ok out) ∧
         Forall (λ item, key_codes item = []) out.
Proof.
  intros Hlast.
  destruct (to_training_data_run self [] _ _ Hlast) as (st & r & Hreach & Hleave & Hr).
  pose proof (reachable_keys_consumed _ _ _ _ Hreach) as [_ Hitems].
  assert (Hempty : Forall (λ item : DatasetItem Screen, key_codes item = []) (data_out st)).
  { eapply Forall_impl; [exact Hitems|]. simpl. intros item [n ->].
    rewrite take_nil. unfold active_key_set. simpl. apply elements_empty. }
  destruct Hleave as [Hge|Hlt Hit|e Hlt Hit]; [by eauto..|].
  apply iteration_Throw in Hit as (key & _ & ke & se & Hke & _); [|done].
  by rewrite lookup_nil in Hke.
Qed.

Lemma merge_without_key_events_witness :
  last scenario_screens = Some (mkScreenEvent 4%nat 4) ∧
  ∃ out, to_training_data (recorder_discarding 3) [] scenario_screens = Some (Ok out) ∧
         Forall (λ item, key_codes item = []) out.
Proof.
  split; [reflexivity|].
  exact (merge_without_key_events (recorder_discarding 3) scenario_screens
           (mkScreenEvent 4%nat 4) eq_refl).
Defined.

(** X2. When every ['up'] of the key sequence finds its key held by the
    events before it (the raising replay of the whole sequence succeeds),
    the merge of a non-empty frame sequence raises nothing and returns a
    dataset. *)
Theorem matched_keys_never_raise {Screen : Type} (self : Recorder)
    (key_sequence : list KeyEvent) (screen_sequence : list (ScreenEvent Screen))
    (last_screen : ScreenEvent Screen) (held : gset string) :
  last screen_sequence = Some last_screen →
  replay key_sequence = Ok held →
  ∃ out, to_training_data self key_sequence screen_sequence = Some (Ok out).
Proof.
  intros Hlast Hreplay.
  destruct (to_training_data_run self key_sequence _ _ Hlast)
    as (st & r & Hreach & Hleave & Hr).
  pose proof (reachable_keys_consumed _ _ _ _ Hreach) as [Hcur _].
  destruct Hleave as [Hge|Hlt Hit|e Hlt Hit]; [by eauto..|].
  apply iteration_Throw in Hit as (key & _ & ke & se & Hke & _ & _ & Hdown & <- & Hin);
    [|done].
  exfalso. apply Hin. rewrite Hcur. by eapply replay_Ok_up_held.
Qed.

Lemma matched_keys_never_raise_witness :
  last scenario_screens = Some (mkScreenEvent 4%nat 4) ∧
  replay scenario_keys = Ok ∅ ∧
  ∃ out, to_training_data (recorder_discarding 3) scenario_keys scenario_screens
         = Some (Ok out).
Proof.
  assert (Hreplay : replay scenario_keys = Ok ∅) by (vm_compute; reflexivity).
  split; [reflexivity|]. split; [exact Hreplay|].
  exact (matched_keys_never_raise (recorder_discarding 3) scenario_keys scenario_screens
           (mkScreenEvent 4%nat 4) ∅ eq_refl Hreplay).
Defined.

(** X3. Whatever the timestamps are, the key list of every item of the
    merge output has no duplicates and holds only keys that have a ['down']
    event in the key sequence. *)
Theorem merged_keys_come_from_down_events {Screen : Type} (self : Recorder)
    (key_sequence : list KeyEvent) (screen_sequence : list (ScreenEvent Screen))
    (out : list (DatasetItem Screen)) :
  to_training_data self key_sequence screen_sequence = Some (Ok out) →
  ∀ item, item ∈ out →
    NoDup (key_codes item) ∧
    ∀ key, key ∈ key_codes item →
      ∃ e, e ∈ key_sequence ∧ down e = true ∧ key_code e = key.
Proof.
  intros Hrun item Hitem.
  apply to_training_data_Ok in Hrun as (last_screen & st & _ & Hreach & ->).
  pose proof (reachable_keys_consumed _ _ _ _ Hreach) as [_ Hitems].
  rewrite Forall_forall in Hitems. destruct (Hitems _ Hitem) as [n ->].
  split; [apply NoDup_elements|].
  intros key Hkey%elem_of_elements.
  destruct (active_key_set_from_down _ _ Hkey) as (e & He & Hdown & Hcode).
  exists e. split; [|done]. apply elem_of_take in He as (i & He & _).
  by eapply list_elem_of_lookup_2.
Qed.

Lemma merged_keys_come_from_down_events_witness :
  to_training_data (recorder_discarding 0) scenario_keys scenario_screens
    = Some (Ok scenario_dataset) ∧
  mkDatasetItem 1%nat ["k"%string] 1 ∈ scenario_dataset ∧
  NoDup ["k"%string] ∧
  ∀ key, key ∈ ["k"%string] →
    ∃ e, e ∈ scenario_keys ∧ down e = true ∧ key_code e = key.
Proof.
  assert (Hin : mkDatasetItem 1%nat ["k"%string] 1 ∈ scenario_dataset).
  { apply list_elem_of_further, list_elem_of_here. }
  split; [exact scenario_merge|]. split; [exact Hin|].
  exact (merged_keys_come_from_down_events (recorder_discarding 0) scenario_keys
           scenario_screens scenario_dataset scenario_merge _ Hin).
Defined.

(** X4. The merge stops at the first frame after the cutoff, whatever comes
    behind it: every frame before the length of the output is at or before
    the cutoff that the subtraction of line 109 returns, and the frame at
    the length of the output, when there is one, is after it. *)
Theorem merge_stops_at_first_frame_after_cutoff {Screen : Type} (fsub : Q → Q → Q)
    (self : Recorder)
    (key_sequence : list KeyEvent) (screen_sequence : list (ScreenEvent Screen))
    (last_screen : ScreenEvent Screen) (out : list (DatasetItem Screen)) :
  last screen_sequence = Some last_screen →
  to_training_data_with fsub self key_sequence screen_sequence = Some (Ok out) →
  let end_timestamp := fsub (screen_timestamp last_screen) (discard_tail_sec self) in
  (∀ i se, (i < length out)%nat → screen_sequence !! i = Some se →
           screen_timestamp se <= end_timestamp) ∧
  (∀ se, screen_sequence !! length out = Some se →
         end_timestamp < screen_timestamp se).
Proof.
  intros Hlast Hrun end_timestamp.
  destruct (to_training_data_with_Ok_exit _ _ _ _ _ _ Hlast Hrun)
    as (st & Hreach & -> & Hlen & Hsi & Hnext).
  split.
  - intros i se Hi Hse.
    destruct (lookup_lt_is_Some_2 (data_out st) i Hi) as [item Hitem].
    apply reachable_emitted_prefix in Hreach.
    destruct (Forall2_lookup_l _ _ _ _ _ Hreach Hitem) as (se' & Hse' & _ & _ & Hle).
    apply lookup_take_Some in Hse' as [Hse' _].
    assert (se' = se) as -> by congruence. exact Hle.
  - rewrite Hlen. exact Hnext.
Qed.

Lemma merge_stops_at_first_frame_after_cutoff_witness :
  last close_screens = Some (mkScreenEvent 1%nat 1) ∧
  to_training_data_with float_sub close_recorder [] close_screens
    = Some (Ok [ mkDatasetItem 0%nat [] (round64 0.9) ]) ∧
  (∀ i se, (i < 1)%nat → close_screens !! i = Some se →
           screen_timestamp se <= float_sub 1 (discard_tail_sec close_recorder)) ∧
  (∀ se, close_screens !! 1%nat = Some se →
         float_sub 1 (discard_tail_sec close_recorder) < screen_timestamp se).
Proof.
  assert (Hrun : to_training_data_with float_sub close_recorder [] close_screens
                 = Some (Ok [ mkDatasetItem 0%nat [] (round64 0.9) ]))
    by (vm_compute; reflexivity).
  split; [reflexivity|]. split; [exact Hrun|].
  exact (merge_stops_at_first_frame_after_cutoff float_sub close_recorder []
           close_screens (mkScreenEvent 1%nat 1) _ eq_refl Hrun).
Defined.

(** X5. On a time-ordered frame sequence the merge retains every frame at or
    before the cutoff: the frames at or before the cutoff that the
    subtraction of line 109 returns are exactly the first [len(out)]
    frames. *)
Theorem merge_retains_all_frames_before_cutoff {Screen : Type} (fsub : Q → Q → Q)
    (self : Recorder)
    (key_sequence : list KeyEvent) (screen_sequence : list (ScreenEvent Screen))
    (last_screen : ScreenEvent Screen) (out : list (DatasetItem Screen)) :
  last screen_sequence = Some last_screen →
  time_ordered screen_timestamp screen_sequence →
  to_training_data_with fsub self key_sequence screen_sequence = Some (Ok out) →
  filter (λ se, screen_timestamp se <=
                fsub (screen_timestamp last_screen) (discard_tail_sec self))
         screen_sequence
  = take (length out) screen_sequence.
Proof.
  intros Hlast Hord Hrun.
  destruct (to_training_data_with_Ok_exit _ _ _ _ _ _ Hlast Hrun)
    as (st & Hreach & -> & Hlen & Hsi & Hnext).
  apply reachable_emitted_prefix in Hreach. unfold emitted_prefix in Hreach.
  rewrite Hlen.
  rewrite <- (take_drop (si st) screen_sequence) at 1.
  rewrite filter_app, filter_all, filter_none; [by rewrite app_nil_r| |].
  - apply Forall_lookup_2. intros j b Hb. rewrite lookup_drop in Hb.
    destruct (lookup_lt_is_Some_2 screen_sequence (si st)) as [a Ha].
    { apply lookup_lt_Some in Hb. lia. }
    specialize (Hnext a Ha).
    assert (screen_timestamp a <= screen_timestamp b)
      by (eapply (Hord (si st) (si st + j)%nat); [lia|done..]).
    apply Qlt_not_le. lra.
  - apply Forall_lookup_2. intros i se Hse.
    by destruct (Forall2_lookup_r _ _ _ _ _ Hreach Hse) as (item & _ & _ & _ & Hcut).
Qed.

Lemma merge_retains_all_frames_before_cutoff_witness :
  last close_screens = Some (mkScreenEvent 1%nat 1) ∧
  time_ordered screen_timestamp close_screens ∧
  to_training_data_with float_sub close_recorder [] close_screens
    = Some (Ok [ mkDatasetItem 0%nat [] (round64 0.9) ]) ∧
  filter (λ se, screen_timestamp se <= float_sub 1 (discard_tail_sec close_recorder))
         close_screens
  = take 1 close_screens.
Proof.
  assert (Hs : time_ordered screen_timestamp close_screens)
    by (apply time_ordered_check_sound; vm_compute; reflexivity).
  assert (Hrun : to_training_data_with float_sub close_recorder [] close_screens
                 = Some (Ok [ mkDatasetItem 0%nat [] (round64 0.9) ]))
    by (vm_compute; reflexivity).
  split; [reflexivity|]. split; [exact Hs|]. split; [exact Hrun|].
  exact (merge_retains_all_frames_before_cutoff float_sub close_recorder []
           close_screens (mkScreenEvent 1%nat 1) _ eq_refl Hs Hrun).
Defined.

(** ** Key events behind an event that is never due *)

Section Late.
Context {Screen : Type}.
Variable key_sequence late : list KeyEvent.
Variable screen_sequence : list (ScreenEvent Screen).
Variable end_timestamp : Q.

Hypothesis late_head_never_due :
  ∀ ke se, head late = Some ke → se ∈ screen_sequence →
           ¬ key_timestamp ke < screen_timestamp se.

(** As long as the key cursor is within [key_sequence], an iteration does
    the same with and without the events appended to it. *)
Lemma iteration_app_late (st : @state Screen) :
  (ki st ≤ length key_sequence)%nat →
  iteration (key_sequence ++ late) screen_sequence end_timestamp st
  = iteration key_sequence screen_sequence end_timestamp st.
Proof.
  intros Hki. unfold iteration.
  destruct (screen_sequence !! si st) as [se|] eqn:Hse; [|done].
  destruct (decide (ki st < length key_sequence)%nat) as [Hlt|Hge].
  - by rewrite lookup_app_l.
  - assert (ki st = length key_sequence) as Heq by lia.
    rewrite (lookup_ge_None_2 key_sequence) by lia.
    rewrite lookup_app_r, Heq, Nat.sub_diag, <- head_lookup by lia.
    destruct (head late) as [ke|] eqn:Hhead; [|done].
    rewrite decide_False; [done|].
    apply late_head_never_due; [done|]. by eapply list_elem_of_lookup_2.
Qed.

Lemma reachable_app_late (st : @state Screen) :
  reachable key_sequence screen_sequence end_timestamp st →
  reachable (key_sequence ++ late) screen_sequence end_timestamp st.
Proof.
  unfold reachable. revert st. apply rtc_ind_r; [done|].
  intros st1 st2 Hreach [Hlt Hit] IH.
  eapply rtc_r; [exact IH|]. split; [done|].
  rewrite iteration_app_late; [done|]. by apply reachable_bounds in Hreach as [? _].
Qed.

Lemma leaves_app_late (st : @state Screen) r :
  (ki st ≤ length key_sequence)%nat →
  leaves key_sequence screen_sequence end_timestamp st r →
  leaves (key_sequence ++ late) screen_sequence end_timestamp st r.
Proof.
  intros Hki [Hge|Hlt Hit|e Hlt Hit].
  - by apply leaves_exhausted.
  - apply leaves_break; [done|]. by rewrite iteration_app_late.
  - apply leaves_throw; [done|]. by rewrite iteration_app_late.
Qed.
End Late.

(** X6. Key events placed behind an event that is not strictly before any
    frame are never looked at: when the first of the appended events is not
    before any frame, the merge gives the same result, dataset or
    exception, with and without the appended events. *)
Theorem late_key_events_are_ignored {Screen : Type} (self : Recorder)
    (key_sequence late : list KeyEvent) (screen_sequence : list (ScreenEvent Screen)) :
  (∀ ke se, head late = Some ke → se ∈ screen_sequence →
            ¬ key_timestamp ke < screen_timestamp se) →
  to_training_data self (key_sequence ++ late) screen_sequence
  = to_training_data self key_sequence screen_sequence.
Proof.
  intros Hlate.
  destruct (last screen_sequence) as [last_screen|] eqn:Hlast.
  - destruct (to_training_data_run self key_sequence _ _ Hlast)
      as (st & r & Hreach & Hleave & ->).
    unfold to_training_data. rewrite Hlast.
    apply (while_complete _ _ _ _ initial st).
    + by apply reachable_app_late.
    + apply leaves_app_late; [done| |done].
      by apply reachable_bounds in Hreach as [? _].
    + unfold remaining. simpl. lia.
  - unfold to_training_data. by rewrite Hlast.
Qed.

Lemma late_key_events_are_ignored_witness :
  (∀ ke se, head [mkKeyEvent "k" 4 false; mkKeyEvent "j" 1 true] = Some ke →
            se ∈ scenario_screens →
            ¬ key_timestamp ke < screen_timestamp se) ∧
  to_training_data (recorder_discarding 0)
    (scenario_keys ++ [mkKeyEvent "k" 4 false; mkKeyEvent "j" 1 true]) scenario_screens
  = to_training_data (recorder_discarding 0) scenario_keys scenario_screens.
Proof.
  assert (Hlate : ∀ ke se,
            head [mkKeyEvent "k" 4 false; mkKeyEvent "j" 1 true] = Some ke →
            se ∈ scenario_screens →
            ¬ key_timestamp ke < screen_timestamp se).
  { intros ke se [= <-] Hse. apply Qle_not_lt.
    unfold scenario_screens in Hse. rewrite !elem_of_cons in Hse.
    destruct Hse as [->|[->|[->|[->|[->|Hse]]]]];
      [vm_compute; discriminate..|by apply not_elem_of_nil in Hse]. }
  split; [exact Hlate|].
  exact (late_key_events_are_ignored (recorder_discarding 0) scenario_keys _
           scenario_screens Hlate).
Defined.

(** ** The merge and the frame rate together *)

(** X7. When the frame timestamps strictly increase and the merge retains at
    least two frames, the rate computation of the exporter raises nothing
    and the frame rate given to the video writer is positive. *)
Theorem export_rate_positive {Screen : Type} (self : Recorder)
    (key_sequence : list KeyEvent) (screen_sequence : list (ScreenEvent Screen))
    (out : list (DatasetItem Screen)) :
  strictly_time_ordered screen_timestamp screen_sequence →
  to_training_data self key_sequence screen_sequence = Some (Ok out) →
  (2 ≤ length out)%nat →
  ∃ fps, export_rate out = Ok (Some fps) ∧ 0 < fps.
Proof.
  intros Hord Hrun Hlen.
  destruct (lookup_lt_is_Some_2 out 0%nat) as [a Ha]; [lia|].
  destruct (lookup_lt_is_Some_2 out (pred (length out))) as [b Hb]; [lia|].
  destruct (to_training_data_frame_at _ _ _ _ Hrun _ _ Ha) as (sa & Hsa & _ & Hta).
  destruct (to_training_data_frame_at _ _ _ _ Hrun _ _ Hb) as (sb & Hsb & _ & Htb).
  assert (Hspan : screen_timestamp sa < screen_timestamp sb).
  { eapply (Hord 0%nat (pred (length out))); [lia|done..]. }
  assert (Hpos : 0 < timestamp b - timestamp a) by (rewrite Hta, Htb; lra).
  exists (inject_Z (Z.of_nat (length out)) / (timestamp b - timestamp a)).
  split.
  - unfold export_rate, avg_fps. rewrite decide_False by lia.
    rewrite last_lookup, Hb, head_lookup, Ha.
    destruct Qeq_dec as [Hzero|_]; [|done]. rewrite Hzero in Hpos.
    by apply Qlt_irrefl in Hpos.
  - apply Qlt_shift_div_l; [done|]. rewrite Qmult_0_l.
    unfold Qlt. simpl. lia.
Qed.

Lemma export_rate_positive_witness :
  strictly_time_ordered screen_timestamp scenario_screens ∧
  to_training_data (recorder_discarding 0) scenario_keys scenario_screens
    = Some (Ok scenario_dataset) ∧
  (2 ≤ length scenario_dataset)%nat ∧
  ∃ fps, export_rate scenario_dataset = Ok (Some fps) ∧ 0 < fps.
Proof.
  assert (Hs : strictly_time_ordered screen_timestamp scenario_screens)
    by (apply strictly_time_ordered_check_sound; vm_compute; reflexivity).
  assert (Hlen : (2 ≤ length scenario_dataset)%nat) by (simpl; lia).
  split; [exact Hs|]. split; [exact scenario_merge|]. split; [exact Hlen|].
  exact (export_rate_positive (recorder_discarding 0) scenario_keys scenario_screens
           scenario_dataset Hs scenario_merge Hlen).
Defined.

(** * The capture side *)

Lemma record_keyboard_fmap (self : Recorder) (deliveries : list (Q * KeyboardEvent)) :
  record_keyboard self deliveries = key_event_of self <$> deliveries.
Proof.
  unfold record_keyboard.
  assert (Hgen : ∀ acc, fold_left (λ ks d, handle_event self ks d.1 d.2) deliveries acc
                        = acc ++ (key_event_of self <$> deliveries)).
  { induction deliveries as [|d deliveries IH]; intros acc; simpl.
    - by rewrite app_nil_r.
    - rewrite IH. unfold handle_event, key_event_of. by rewrite <- app_assoc. }
  apply Hgen.
Qed.

Lemma record_screen_fmap {Screen : Type} (captures : list (Screen * Q)) :
  record_screen captures = (λ c, mkScreenEvent c.1 c.2) <$> captures.
Proof.
  unfold record_screen.
  assert (Hgen : ∀ acc,
            fold_left (λ screens c, screens ++ [mkScreenEvent c.1 c.2]) captures acc
            = acc ++ ((λ c, mkScreenEvent c.1 c.2) <$> captures)).
  { induction captures as [|c captures IH]; intros acc; simpl.
    - by rewrite app_nil_r.
    - rewrite IH. by rewrite <- app_assoc. }
  apply Hgen.
Qed.

Lemma time_ordered_fmap {A B : Type} (f : A → B) (ts : B → Q) (l : list A) :
  time_ordered (λ a, ts (f a)) l → time_ordered ts (f <$> l).
Proof.
  intros Hord i j a b Hij Ha Hb.
  apply list_lookup_fmap_Some in Ha as (a' & -> & Ha).
  apply list_lookup_fmap_Some in Hb as (b' & -> & Hb).
  by eapply Hord.
Qed.

Lemma filter_fmap_iff {A B : Type} (f : A → B) (P : B → Prop) (R : A → Prop)
    `{!∀ x, Decision (P x)} `{!∀ x, Decision (R x)} (l : list A) :
  (∀ x, P (f x) ↔ R x) → filter P (f <$> l) = f <$> filter R l.
Proof.
  intros Hiff. induction l as [|x l IH]; [done|].
  rewrite fmap_cons. destruct (decide (R x)) as [HR|HR].
  - rewrite (filter_cons_True R) by done.
    rewrite filter_cons_True by by apply Hiff. by rewrite fmap_cons, IH.
  - rewrite (filter_cons_False R) by done.
    rewrite filter_cons_False by by rewrite Hiff. done.
Qed.

(** X8. Adding the key delay never reorders the recorded key events: when
    the clock readings of the deliveries never decrease, the key sequence
    returned has one event per delivery and is time-ordered, whatever the
    delay is. *)
Theorem record_keyboard_time_ordered (self : Recorder)
    (deliveries : list (Q * KeyboardEvent)) :
  time_ordered fst deliveries →
  length (record_keyboard self deliveries) = length deliveries ∧
  time_ordered key_timestamp (record_keyboard self deliveries).
Proof.
  intros Hord. rewrite record_keyboard_fmap. split; [apply length_fmap|].
  apply time_ordered_fmap. intros i j a b Hij Ha Hb. simpl.
  apply Qplus_le_l. by eapply Hord.
Qed.

Lemma record_keyboard_time_ordered_witness :
  time_ordered fst scenario_deliveries ∧
  length (record_keyboard (recorder_discarding 3) scenario_deliveries)
    = length scenario_deliveries ∧
  time_ordered key_timestamp (record_keyboard (recorder_discarding 3) scenario_deliveries).
Proof.
  assert (Hd : time_ordered fst scenario_deliveries)
    by (apply time_ordered_check_sound; vm_compute; reflexivity).
  split; [exact Hd|].
  exact (record_keyboard_time_ordered (recorder_discarding 3) scenario_deliveries Hd).
Defined.

Lemma record_keyboard_with_fmap (fadd : Q → Q → Q) (self : Recorder)
    (deliveries : list (Q * KeyboardEvent)) :
  record_keyboard_with fadd self deliveries = key_event_with fadd self <$> deliveries.
Proof.
  unfold record_keyboard_with.
  assert (Hgen : ∀ acc,
            fold_left (λ ks d, handle_event_with fadd self ks d.1 d.2) deliveries acc
            = acc ++ (key_event_with fadd self <$> deliveries)).
  { induction deliveries as [|d deliveries IH]; intros acc; simpl.
    - by rewrite app_nil_r.
    - rewrite IH. unfold handle_event_with, key_event_with. by rewrite <- app_assoc. }
  apply Hgen.
Qed.

(** X9. The capture and the merge together: when the key timestamps
    recorded (the clock reading plus the key delay, as the addition of
    line 85 returns it) and the clock readings of the captures never
    decrease, the item made from the capture taken at time [t] carries, as
    a set, the replay of exactly the deliveries whose recorded key
    timestamp is strictly before [t]. *)
Theorem key_delay_shifts_the_window {Screen : Type} (fadd fsub : Q → Q → Q)
    (self : Recorder)
    (deliveries : list (Q * KeyboardEvent)) (captures : list (Screen * Q))
    (out : list (DatasetItem Screen)) :
  time_ordered key_timestamp (record_keyboard_with fadd self deliveries) →
  time_ordered snd captures →
  to_training_data_with fsub self (record_keyboard_with fadd self deliveries)
    (record_screen captures)
    = Some (Ok out) →
  ∀ i item, out !! i = Some item →
    ∃ c, captures !! i = Some c ∧ screen item = c.1 ∧ timestamp item = c.2 ∧
         list_to_set (key_codes item) =
           active_key_set
             (record_keyboard_with fadd self
                (filter (λ d, fadd d.1 (key_recording_delay_sec self) < c.2) deliveries)).
Proof.
  intros Hkeys Hcap Hrun i item Hitem.
  destruct (to_training_data_with_frame_at _ _ _ _ _ Hrun _ _ Hitem)
    as (se & Hse & Hs & Ht).
  rewrite record_screen_fmap in Hse.
  apply list_lookup_fmap_Some in Hse as (c & -> & Hc). simpl in Hs, Ht.
  exists c. split_and!; [done..|].
  destruct (to_training_data_with_last _ _ _ _ _ Hrun) as [last_screen Hlast].
  destruct (to_training_data_with_Ok_exit _ _ _ _ _ _ Hlast Hrun)
    as (st & Hreach & -> & _).
  apply reachable_keys_replayed in Hreach as (_ & _ & Hall).
  - destruct (Forall_lookup_1 _ _ _ _ Hall Hitem) as [-> _].
    rewrite !record_keyboard_with_fmap. f_equal.
    apply filter_fmap_iff. intros d. unfold key_event_with. simpl. by rewrite Ht.
  - done.
  - rewrite record_screen_fmap. by apply time_ordered_fmap.
Qed.

Lemma key_delay_shifts_the_window_witness :
  time_ordered key_timestamp (record_keyboard_with float_add tie_recorder tie_deliveries) ∧
  time_ordered snd tie_captures ∧
  to_training_data_with float_sub tie_recorder
    (record_keyboard_with float_add tie_recorder tie_deliveries)
    (record_screen tie_captures)
  = Some (Ok [ mkDatasetItem 0%nat [] 1700000000;
               mkDatasetItem 1%nat [] (round64 1700000000.24) ]) ∧
  ∃ c, tie_captures !! 1%nat = Some c ∧ 1%nat = c.1 ∧ round64 1700000000.24 = c.2 ∧
       list_to_set [] =
         active_key_set
           (record_keyboard_with float_add tie_recorder
              (filter (λ d, float_add d.1 (key_recording_delay_sec tie_recorder) < c.2)
                      tie_deliveries)).
Proof.
  assert (Hk : time_ordered key_timestamp
                 (record_keyboard_with float_add tie_recorder tie_deliveries))
    by (apply time_ordered_check_sound; vm_compute; reflexivity).
  assert (Hc : time_ordered snd tie_captures)
    by (apply time_ordered_check_sound; vm_compute; reflexivity).
  assert (Hrun : to_training_data_with float_sub tie_recorder
                   (record_keyboard_with float_add tie_recorder tie_deliveries)
                   (record_screen tie_captures)
                 = Some (Ok [ mkDatasetItem 0%nat [] 1700000000;
                              mkDatasetItem 1%nat [] (round64 1700000000.24) ]))
    by (vm_compute; reflexivity).
  split; [exact Hk|]. split; [exact Hc|]. split; [exact Hrun|].
  exact (key_delay_shifts_the_window float_add float_sub tie_recorder tie_deliveries
           tie_captures _ Hk Hc Hrun 1%nat
           (mkDatasetItem 1%nat [] (round64 1700000000.24)) eq_refl).
Defined.

(** * What [record] does with the merged dataset *)

Section ExportFacts.
Context {Screen Dir : Type}.
Variable keys_to_directions : list string → Dir.
Variable np_keys_filename np_screens_filename avi_video_filename : string.
Variable save_dir : string.

Lemma io_for_calls {A : Type} (f : A → @effect Screen Dir) (l : list A) :
  io_for l (λ x, io_call (f x)) = (f <$> l, inr tt).
Proof.
  induction l as [|x l IH]; [done|].
  simpl. rewrite IH. done.
Qed.

Lemma np_stack_nonempty {A : Type} (arrays : list A) :
  arrays ≠ [] → np_stack (Screen := Screen) (Dir := Dir) arrays = ([], inr arrays).
Proof. by destruct arrays. Qed.

Lemma save_session_nonempty (dataset : list (DatasetItem Screen)) (folder_name : string) :
  dataset ≠ [] →
  save_session keys_to_directions np_keys_filename np_screens_filename
               avi_video_filename save_dir dataset folder_name
  = io_bind (calls_before_video keys_to_directions np_keys_filename np_screens_filename
               save_dir dataset folder_name, inr tt) (λ _,
    io_bind (save_avi_video avi_video_filename save_dir dataset folder_name) (λ _,
    io_call (Print (SavedTo folder_name)))).
Proof.
  intros Hne. unfold save_session, save_np_keys, save_np_screens, calls_before_video.
  rewrite decide_False by (by destruct dataset).
  rewrite !np_stack_nonempty by (by destruct dataset).
  simpl. by destruct save_avi_video as [calls [e|[]]].
Qed.
End ExportFacts.

Lemma save_session_with_nonempty {Screen Dir : Type} (fsub fdiv : Q → Q → Q)
    (keys_to_directions : list string → Dir)
    (np_keys_filename np_screens_filename avi_video_filename save_dir : string)
    (dataset : list (DatasetItem Screen)) (folder_name : string) :
  dataset ≠ [] →
  save_session_with fsub fdiv keys_to_directions np_keys_filename np_screens_filename
                    avi_video_filename save_dir dataset folder_name
  = io_bind (calls_before_video keys_to_directions np_keys_filename np_screens_filename
               save_dir dataset folder_name, inr tt) (λ _,
    io_bind (save_avi_video_with fsub fdiv avi_video_filename save_dir dataset
               folder_name) (λ _,
    io_call (Print (SavedTo folder_name)))).
Proof.
  intros Hne. unfold save_session_with, save_np_keys, save_np_screens, calls_before_video.
  rewrite decide_False by (by destruct dataset).
  rewrite !np_stack_nonempty by (by destruct dataset).
  simpl. by destruct save_avi_video_with as [calls [e|[]]].
Qed.

(** X10. A session of which the cutoff that the subtraction of line 109
    returns is strictly before the first frame's timestamp, with key events
    that match, is skipped: the merge returns the empty dataset, and for it
    [record] prints the skip message and calls nothing else; no folder is
    made and nothing is saved. *)
Theorem short_session_is_skipped {Screen Dir : Type} (fsub fdiv : Q → Q → Q)
    (keys_to_directions : list string → Dir)
    (np_keys_filename np_screens_filename avi_video_filename save_dir : string)
    (self : Recorder) (key_sequence : list KeyEvent)
    (screen_sequence : list (ScreenEvent Screen))
    (first_screen last_screen : ScreenEvent Screen) (held : gset string)
    (folder_name : string) :
  head screen_sequence = Some first_screen →
  last screen_sequence = Some last_screen →
  fsub (screen_timestamp last_screen) (discard_tail_sec self)
    < screen_timestamp first_screen →
  replay key_sequence = Ok held →
  ∃ dataset,
    to_training_data_with fsub self key_sequence screen_sequence = Some (Ok dataset) ∧
    dataset = [] ∧
    save_session_with fsub fdiv keys_to_directions np_keys_filename np_screens_filename
                      avi_video_filename save_dir dataset folder_name
    = ([Print SkippingEmpty], inr tt).
Proof.
  intros Hhead Hlast Hcut Hreplay.
  destruct (to_training_data_with_run fsub self key_sequence _ _ Hlast)
    as (st & r & Hreach & Hleave & Hr).
  pose proof (emitted_prefix_nil _ _ _ _ Hhead Hcut
                (reachable_emitted_prefix _ _ _ _ Hreach)) as Hnil.
  pose proof (reachable_keys_consumed _ _ _ _ Hreach) as [Hcur _].
  exists []. split; [|done].
  destruct Hleave as [Hge|Hlt Hit|e Hlt Hit]; [by rewrite Hr, Hnil..|].
  apply iteration_Throw in Hit as (key & _ & ke & se & Hke & _ & _ & Hdown & <- & Hin);
    [|done].
  exfalso. apply Hin. rewrite Hcur. by eapply replay_Ok_up_held.
Qed.

Lemma short_session_is_skipped_witness :
  (head scenario_screens = Some (mkScreenEvent 0%nat 0) ∧
   last scenario_screens = Some (mkScreenEvent 4%nat 4) ∧
   float_sub 4 (discard_tail_sec (recorder_discarding 5)) < 0 ∧
   replay scenario_keys = Ok ∅) ∧
  ∃ dataset,
    to_training_data_with float_sub (recorder_discarding 5) scenario_keys scenario_screens
      = Some (Ok dataset) ∧
    dataset = [] ∧
    save_session_with float_sub float_div (length (A := string))
                      "keys.npy" "screens.npy" "video.avi" "data"
                      dataset "20211231-235959"
    = ([Print SkippingEmpty], inr tt).
Proof.
  assert (Hreplay : replay scenario_keys = Ok ∅) by (vm_compute; reflexivity).
  assert (Hcut : float_sub 4 (discard_tail_sec (recorder_discarding 5)) < 0)
    by (vm_compute; reflexivity).
  split; [split_and!; [reflexivity|reflexivity|exact Hcut|exact Hreplay]|].
  exact (short_session_is_skipped float_sub float_div (length (A := string))
           "keys.npy" "screens.npy" "video.avi" "data" (recorder_discarding 5)
           scenario_keys scenario_screens
           (mkScreenEvent 0%nat 0) (mkScreenEvent 4%nat 4) ∅ "20211231-235959"
           eq_refl eq_refl Hcut Hreplay).
Defined.

(** The session of [close_screens] is not skipped, although it lasts less
    than the tail: one frame is retained, the folder and the two arrays are
    written, and the rate raises [ZeroDivisionError]. *)
Example close_session_is_not_skipped :
  to_training_data_with float_sub close_recorder [] close_screens
  = Some (Ok [ mkDatasetItem 0%nat [] (round64 0.9) ]) ∧
  save_session_with float_sub float_div (length (A := string))
                    "keys.npy" "screens.npy" "video.avi" "data"
                    [ mkDatasetItem 0%nat [] (round64 0.9) ] "20211231-235959"
  = ([ Mkdir ["data"; "20211231-235959"];
       NpSaveKeys ["data"; "20211231-235959"; "keys.npy"] [0%nat];
       NpSaveScreens ["data"; "20211231-235959"; "screens.npy"] [0%nat] ],
     inl (Builtin ZeroDivisionError)).
Proof. split; vm_compute; reflexivity. Qed.

(** X11. A non-empty dataset whose first and last timestamps are equal (any
    dataset of one item) leaves a partial export behind: [record] makes the
    folder and saves the key array and the screen array, then raises
    [ZeroDivisionError]; no video is opened and the last message is not
    printed. *)
Theorem zero_span_leaves_partial_export {Screen Dir : Type}
    (keys_to_directions : list string → Dir)
    (np_keys_filename np_screens_filename avi_video_filename save_dir : string)
    (dataset : list (DatasetItem Screen)) (first_item last_item : DatasetItem Screen)
    (folder_name : string) :
  head dataset = Some first_item →
  last dataset = Some last_item →
  timestamp last_item - timestamp first_item == 0 →
  save_session keys_to_directions np_keys_filename np_screens_filename
               avi_video_filename save_dir dataset folder_name
  = ([ Mkdir [save_dir; folder_name];
       NpSaveKeys [save_dir; folder_name; np_keys_filename]
                  ((λ x, keys_to_directions (key_codes x)) <$> dataset);
       NpSaveScreens [save_dir; folder_name; np_screens_filename]
                     (screen <$> dataset) ],
     inl (Builtin ZeroDivisionError)).
Proof.
  intros Hhead Hlast Hzero.
  rewrite save_session_nonempty by (by destruct dataset).
  unfold save_avi_video, avg_fps. rewrite Hlast, Hhead.
  destruct Qeq_dec as [_|Hne]; [|done].
  done.
Qed.

Lemma zero_span_leaves_partial_export_witness :
  (head (take 1 scenario_dataset) = Some (mkDatasetItem 0%nat [] 0) ∧
   last (take 1 scenario_dataset) = Some (mkDatasetItem 0%nat [] 0) ∧
   0 - 0 == 0) ∧
  save_session (length (A := string)) "keys.npy" "screens.npy" "video.avi" "data"
               (take 1 scenario_dataset) "20211231-235959"
  = ([ Mkdir ["data"; "20211231-235959"];
       NpSaveKeys ["data"; "20211231-235959"; "keys.npy"] [0%nat];
       NpSaveScreens ["data"; "20211231-235959"; "screens.npy"] [0%nat] ],
     inl (Builtin ZeroDivisionError)).
Proof.
  split; [split_and!; reflexivity|].
  exact (zero_span_leaves_partial_export (length (A := string)) "keys.npy" "screens.npy"
           "video.avi" "data" (take 1 scenario_dataset)
           (mkDatasetItem 0%nat [] 0) (mkDatasetItem 0%nat [] 0) "20211231-235959"
           eq_refl eq_refl (Qeq_refl 0)).
Defined.

Lemma items_of_frames_screens {Screen : Type} (end_timestamp : Q)
    (items : list (DatasetItem Screen)) (frames : list (ScreenEvent Screen)) :
  Forall2 (item_of_frame end_timestamp) items frames →
  screen <$> items = screen_of <$> frames.
Proof.
  induction 1 as [|item se items ses (Hs & _) _ IH]; [done|].
  rewrite !fmap_cons. by rewrite Hs, IH.
Qed.

(** X12. The export of a merged dataset for which the subtraction of line
    139 does not return zero completes, and what it writes is aligned:
    after the folder, the key array has one row per item, the screen array
    and the video hold, in order, the screens of the first [len(dataset)]
    captured frames, the video is opened at the rate that the division of
    line 139 returns for [len(dataset)] and the time span, and the last
    call prints the folder name. *)
Theorem complete_export_is_aligned {Screen Dir : Type} (fsub fdiv : Q → Q → Q)
    (keys_to_directions : list string → Dir)
    (np_keys_filename np_screens_filename avi_video_filename save_dir : string)
    (self : Recorder) (key_sequence : list KeyEvent)
    (screen_sequence : list (ScreenEvent Screen))
    (dataset : list (DatasetItem Screen)) (first_item last_item : DatasetItem Screen)
    (folder_name : string) :
  to_training_data_with fsub self key_sequence screen_sequence = Some (Ok dataset) →
  head dataset = Some first_item →
  last dataset = Some last_item →
  ¬ fsub (timestamp last_item) (timestamp first_item) == 0 →
  let rows := screen_of <$> take (length dataset) screen_sequence in
  let fps := fdiv (inject_Z (Z.of_nat (length dataset)))
                  (fsub (timestamp last_item) (timestamp first_item)) in
  save_session_with fsub fdiv keys_to_directions np_keys_filename np_screens_filename
                    avi_video_filename save_dir dataset folder_name
  = ([ Mkdir [save_dir; folder_name];
       NpSaveKeys [save_dir; folder_name; np_keys_filename]
                  ((λ x, keys_to_directions (key_codes x)) <$> dataset);
       NpSaveScreens [save_dir; folder_name; np_screens_filename] rows;
       Print (AverageFps fps);
       VideoWriterOpen [save_dir; folder_name; avi_video_filename] fps ] ++
     (VideoWrite <$> rows) ++
     [ VideoRelease; Print (SavedTo folder_name) ],
     inr tt).
Proof.
  intros Hrun Hhead Hlast Hspan rows fps.
  assert (Hrows : screen <$> dataset = rows).
  { destruct (to_training_data_with_last _ _ _ _ _ Hrun) as [last_screen Hlast'].
    destruct (to_training_data_with_Ok_exit _ _ _ _ _ _ Hlast' Hrun)
      as (st & Hreach & -> & Hlen & _).
    pose proof (reachable_emitted_prefix _ _ _ _ Hreach) as Hinv.
    unfold rows. rewrite Hlen.
    by apply (items_of_frames_screens
                (fsub (screen_timestamp last_screen) (discard_tail_sec self))). }
  rewrite save_session_with_nonempty by (by destruct dataset).
  unfold save_avi_video_with, avg_fps_with, calls_before_video. rewrite Hlast, Hhead.
  destruct Qeq_dec as [Hzero|_]; [done|].
  simpl. rewrite io_for_calls. simpl.
  rewrite <- Hrows, <- list_fmap_compose, <- app_assoc. done.
Qed.

Lemma complete_export_is_aligned_witness :
  (to_training_data_with float_sub (recorder_discarding 0) [] slow_screens
     = Some (Ok slow_dataset) ∧
   head slow_dataset = Some (mkDatasetItem 0%nat [] 0) ∧
   last slow_dataset = Some (mkDatasetItem 1%nat [] 3) ∧
   ¬ float_sub 3 0 == 0) ∧
  save_session_with float_sub float_div (length (A := string))
                    "keys.npy" "screens.npy" "video.avi" "data"
                    slow_dataset "20211231-235959"
  = ([ Mkdir ["data"; "20211231-235959"];
       NpSaveKeys ["data"; "20211231-235959"; "keys.npy"]
                  ((λ x, length (key_codes x)) <$> slow_dataset);
       NpSaveScreens ["data"; "20211231-235959"; "screens.npy"]
                     (screen_of <$> take 2 slow_screens);
       Print (AverageFps (float_div (inject_Z (Z.of_nat 2)) (float_sub 3 0)));
       VideoWriterOpen ["data"; "20211231-235959"; "video.avi"]
                       (float_div (inject_Z (Z.of_nat 2)) (float_sub 3 0)) ] ++
     (VideoWrite <$> (screen_of <$> take 2 slow_screens)) ++
     [ VideoRelease; Print (SavedTo "20211231-235959") ],
     inr tt).
Proof.
  assert (Hrun : to_training_data_with float_sub (recorder_discarding 0) [] slow_screens
                 = Some (Ok slow_dataset)) by (vm_compute; reflexivity).
  assert (Hspan : ¬ float_sub 3 0 == 0) by (vm_compute; discriminate).
  split; [split_and!; [exact Hrun|reflexivity|reflexivity|exact Hspan]|].
  exact (complete_export_is_aligned float_sub float_div (length (A := string))
           "keys.npy" "screens.npy" "video.avi" "data" (recorder_discarding 0) []
           slow_screens slow_dataset (mkDatasetItem 0%nat [] 0) (mkDatasetItem 1%nat [] 3)
           "20211231-235959" Hrun eq_refl eq_refl Hspan).
Defined.

(** The rate of that session is the float nearest to 2 / 3, which is below
    2 / 3. *)
Example slow_session_rate :
  avg_fps_with float_sub float_div slow_dataset
  = Ok (float_div (inject_Z (Z.of_nat 2)) (float_sub 3 0)) ∧
  float_div (inject_Z (Z.of_nat 2)) (float_sub 3 0)
  == 6004799503160661 # 9007199254740992 ∧
  float_div (inject_Z (Z.of_nat 2)) (float_sub 3 0) < 2 / 3.
Proof. split_and!; vm_compute; reflexivity. Qed.

(** * The exceptions of the merge, and what the tail discard changes *)

(** X13. The merge raises [IndexError] exactly on an empty frame sequence;
    every other exception it raises is the [KeyError] of an ['up'] event of
    the key sequence. *)
Theorem merge_exceptions {Screen : Type} (self : Recorder)
    (key_sequence : list KeyEvent) (screen_sequence : list (ScreenEvent Screen)) :
  (to_training_data self key_sequence screen_sequence = Some (Raise IndexError)
   ↔ screen_sequence = []) ∧
  (∀ e, to_training_data self key_sequence screen_sequence = Some (Raise e) →
        e = IndexError ∨
        ∃ ke, ke ∈ key_sequence ∧ down ke = false ∧ e = KeyError (key_code ke)).
Proof.
  destruct (last screen_sequence) as [last_screen|] eqn:Hlast.
  - destruct (to_training_data_run self key_sequence _ _ Hlast)
      as (st & r & Hreach & Hleave & ->).
    assert (Hne : screen_sequence ≠ []) by (by intros ->).
    assert (Hcases : ∀ e, r = Raise e →
              ∃ ke, ke ∈ key_sequence ∧ down ke = false ∧ e = KeyError (key_code ke)).
    { intros e ->. inversion Hleave as [| |e' Hlt Hit]; subst.
      apply iteration_Throw in Hit as (key & -> & ke & se & Hke & _ & _ & Hdown & <- & _);
        [|done].
      exists ke. split; [|done]. by eapply list_elem_of_lookup_2. }
    split.
    + split; [|done]. intros [= Hr]. by destruct (Hcases _ Hr) as (ke & _ & _ & ?).
    + intros e [= Hr]. right. by apply Hcases.
  - apply last_None in Hlast as ->. split; [done|].
    intros e [= <-]. by left.
Qed.

Lemma merge_exceptions_witness :
  to_training_data (recorder_discarding 3) scenario_keys (@nil (ScreenEvent nat))
    = Some (Raise IndexError) ∧
  (to_training_data (recorder_discarding 0) [mkKeyEvent "k" 0 false]
     [mkScreenEvent 0%nat 1] = Some (Raise (KeyError "k")) →
   KeyError "k" = IndexError ∨
   ∃ ke, ke ∈ [mkKeyEvent "k" 0 false] ∧ down ke = false ∧
         KeyError "k" = KeyError (key_code ke)).
Proof.
  split.
  - exact (proj2 (proj1 (merge_exceptions (recorder_discarding 3) scenario_keys [])) eq_refl).
  - exact (proj2 (merge_exceptions (recorder_discarding 0) [mkKeyEvent "k" 0 false]
                    [mkScreenEvent 0%nat 1]) (KeyError "k")).
Defined.

(** X14. A key released before it was pressed: when the key sequence starts
    with an ['up'] event strictly before the first frame, the merge raises
    [KeyError] for its key, whatever follows. *)
Theorem up_before_first_frame_raises {Screen : Type} (self : Recorder)
    (ke : KeyEvent) (key_sequence : list KeyEvent)
    (first_screen : ScreenEvent Screen) (screen_sequence : list (ScreenEvent Screen)) :
  down ke = false →
  key_timestamp ke < screen_timestamp first_screen →
  to_training_data self (ke :: key_sequence) (first_screen :: screen_sequence)
  = Some (Raise (KeyError (key_code ke))).
Proof.
  intros Hdown Hdue. unfold to_training_data.
  destruct (last (first_screen :: screen_sequence)) as [last_screen|] eqn:Hlast.
  - apply (while_complete _ _ _ _ initial initial); [done| |unfold remaining; simpl; lia].
    apply leaves_throw; [simpl; lia|].
    apply iteration_Throw; [simpl; lia|].
    exists (key_code ke). split; [done|]. exists ke, first_screen.
    split_and!; [done..|]. apply not_elem_of_empty.
  - by apply last_None in Hlast.
Qed.

Lemma up_before_first_frame_raises_witness :
  (down (mkKeyEvent "k" 0.5 false) = false ∧
   key_timestamp (mkKeyEvent "k" 0.5 false) < screen_timestamp (mkScreenEvent 1%nat 1)) ∧
  to_training_data (recorder_discarding 3)
    (mkKeyEvent "k" 0.5 false :: scenario_keys)
    (mkScreenEvent 1%nat 1 :: drop 2 scenario_screens)
  = Some (Raise (KeyError "k")).
Proof.
  split; [split; reflexivity|].
  exact (up_before_first_frame_raises (recorder_discarding 3) (mkKeyEvent "k" 0.5 false)
           scenario_keys (mkScreenEvent 1%nat 1) (drop 2 scenario_screens)
           eq_refl eq_refl).
Defined.

Section Cutoffs.
Context {Screen : Type}.
Variable key_sequence : list KeyEvent.
Variable screen_sequence : list (ScreenEvent Screen).
Variable earlier later : Q.
Hypothesis earlier_le_later : earlier <= later.

(** An iteration that goes on under the earlier cutoff does the same under
    the later one. *)
Lemma step_later_cutoff (st st' : @state Screen) :
  step key_sequence screen_sequence earlier st st' →
  step key_sequence screen_sequence later st st'.
Proof.
  intros [Hlt Hit]. split; [done|]. revert Hit. unfold iteration.
  destruct (screen_sequence !! si st) as [se|]; [|done].
  assert (Hemit : emit earlier st se = Next st' → emit later st se = Next st').
  { unfold emit. case_decide as Hcut; [done|]. intros <-.
    rewrite decide_False; [done|]. apply Qle_not_lt. apply Qnot_lt_le in Hcut. lra. }
  destruct (key_sequence !! ki st) as [ke|]; [case_decide|]; auto.
Qed.

Lemma iteration_Throw_later_cutoff (st : @state Screen) e :
  (si st < length screen_sequence)%nat →
  iteration key_sequence screen_sequence earlier st = Throw e →
  iteration key_sequence screen_sequence later st = Throw e.
Proof.
  intros Hlt Hit. apply iteration_Throw; [done|].
  by apply iteration_Throw in Hit.
Qed.

Lemma rtc_step_data_out_prefix cutoff (st st' : @state Screen) :
  rtc (step key_sequence screen_sequence cutoff) st st' →
  data_out st `prefix_of` data_out st'.
Proof.
  induction 1 as [|st st1 st' Hstep _ IH]; [done|].
  etrans; [|exact IH].
  destruct (step_cases _ _ _ _ _ Hstep) as (se & Hse & [(ke & Hke & _ & Hc)|[_ He]]).
  - apply consume_Next in Hc as (_ & _ & -> & _). done.
  - apply emit_Next in He as [_ ->]. simpl. by apply prefix_app_r.
Qed.
End Cutoffs.

(** X15. Discarding a longer tail only cuts items off the end: when the
    merge returns a dataset, the merge of the same sequences with a tail at
    least as long also returns a dataset, and it is a prefix of the first
    one. *)
Theorem discarding_more_truncates {Screen : Type} (self self' : Recorder)
    (key_sequence : list KeyEvent) (screen_sequence : list (ScreenEvent Screen))
    (out : list (DatasetItem Screen)) :
  discard_tail_sec self <= discard_tail_sec self' →
  to_training_data self key_sequence screen_sequence = Some (Ok out) →
  ∃ out', to_training_data self' key_sequence screen_sequence = Some (Ok out') ∧
          out' `prefix_of` out.
Proof.
  intros Hle Hrun.
  destruct (to_training_data_Ok _ _ _ _ Hrun) as (last_screen & _ & Hlast & _).
  set (later := screen_timestamp last_screen - discard_tail_sec self).
  set (earlier := screen_timestamp last_screen - discard_tail_sec self').
  assert (Hcut : earlier <= later) by (unfold earlier, later; lra).
  destruct (to_training_data_run self' key_sequence _ _ Hlast)
    as (st' & r' & Hreach' & Hleave' & ->). fold earlier in Hreach', Hleave'.
  assert (Hreach : reachable key_sequence screen_sequence later st').
  { revert Hreach'. unfold reachable. apply rtc_subrel.
    intros s s'. by apply step_later_cutoff. }
  assert (Hrun_from : ∀ st r, rtc (step key_sequence screen_sequence later) st' st →
                              leaves key_sequence screen_sequence later st r →
                              r = Ok out).
  { intros st r Hrtc Hleave.
    assert (Hr : to_training_data self key_sequence screen_sequence = Some r).
    { unfold to_training_data. rewrite Hlast. fold later.
      apply (while_complete _ _ _ _ initial st); [|done|unfold remaining; simpl; lia].
      by etrans. }
    congruence. }
  destruct (while_returns key_sequence screen_sequence later
              (S (remaining key_sequence screen_sequence st')) st')
    as (st & r & Hrtc & Hleave & _); [lia|].
  pose proof (Hrun_from _ _ Hrtc Hleave) as ->.
  assert (Hout : out = data_out st) by by inversion Hleave.
  pose proof (rtc_step_data_out_prefix _ _ _ _ _ Hrtc) as Hprefix.
  rewrite <- Hout in Hprefix.
  destruct Hleave' as [Hge|Hlt Hit|e Hlt Hit]; [by eauto..|].
  apply (iteration_Throw_later_cutoff _ _ _ later) in Hit; [|done].
  by specialize (Hrun_from st' (Raise e) (rtc_refl _ _)
                   (leaves_throw _ _ _ _ _ Hlt Hit)).
Qed.

Lemma discarding_more_truncates_witness :
  discard_tail_sec (recorder_discarding 0) <= discard_tail_sec (recorder_discarding 1.5) ∧
  to_training_data (recorder_discarding 0) scenario_keys scenario_screens
    = Some (Ok scenario_dataset) ∧
  ∃ out', to_training_data (recorder_discarding 1.5) scenario_keys scenario_screens
          = Some (Ok out') ∧ out' `prefix_of` scenario_dataset.
Proof.
  assert (Hle : discard_tail_sec (recorder_discarding 0)
                <= discard_tail_sec (recorder_discarding 1.5))
    by (vm_compute; discriminate).
  split; [exact Hle|]. split; [exact scenario_merge|].
  exact (discarding_more_truncates (recorder_discarding 0) (recorder_discarding 1.5)
           scenario_keys scenario_screens scenario_dataset Hle scenario_merge).
Defined.

(** X16. Which frames are retained does not depend on the key events: two
    merges of the same frame sequence that both return a dataset return
    datasets of the same length, with the same screen and the same timestamp
    at every index. *)
Theorem retained_frames_do_not_depend_on_keys {Screen : Type} (self : Recorder)
    (key_sequence key_sequence' : list KeyEvent)
    (screen_sequence : list (ScreenEvent Screen))
    (out out' : list (DatasetItem Screen)) :
  to_training_data self key_sequence screen_sequence = Some (Ok out) →
  to_training_data self key_sequence' screen_sequence = Some (Ok out') →
  length out = length out' ∧
  ∀ i item item', out !! i = Some item → out' !! i = Some item' →
                  screen item = screen item' ∧ timestamp item = timestamp item'.
Proof.
  intros Hrun Hrun'.
  destruct (to_training_data_Ok _ _ _ _ Hrun) as (last_screen & _ & Hlast & _).
  split.
  - assert (Hstop : ∀ ks (o : list (DatasetItem Screen)),
              to_training_data self ks screen_sequence = Some (Ok o) →
              (length o ≤ length screen_sequence)%nat ∧
              (∀ i se, (i < length o)%nat → screen_sequence !! i = Some se →
                       screen_timestamp se
                       <= screen_timestamp last_screen - discard_tail_sec self) ∧
              (∀ se, screen_sequence !! length o = Some se →
                     screen_timestamp last_screen - discard_tail_sec self
                     < screen_timestamp se)).
    { intros ks o Ho.
      destruct (to_training_data_Ok_exit _ _ _ _ _ Hlast Ho)
        as (st & Hreach & -> & Hlen & Hsi & Hnext).
      split_and!; [lia| |by rewrite Hlen].
      intros i se Hi Hse.
      destruct (lookup_lt_is_Some_2 (data_out st) i Hi) as [item Hitem].
      apply reachable_emitted_prefix in Hreach.
      destruct (Forall2_lookup_l _ _ _ _ _ Hreach Hitem) as (se' & Hse' & _ & _ & Hle).
      apply lookup_take_Some in Hse' as [Hse' _].
      assert (se' = se) as -> by congruence. exact Hle. }
    destruct (Hstop _ _ Hrun) as (Hlen & Hbefore & Hnext).
    destruct (Hstop _ _ Hrun') as (Hlen' & Hbefore' & Hnext').
    destruct (lt_eq_lt_dec (length out) (length out')) as [[Hlt|Heq]|Hgt]; [|done|].
    + destruct (lookup_lt_is_Some_2 screen_sequence (length out)) as [se Hse]; [lia|].
      specialize (Hnext se Hse). specialize (Hbefore' _ se Hlt Hse). lra.
    + destruct (lookup_lt_is_Some_2 screen_sequence (length out')) as [se Hse]; [lia|].
      specialize (Hnext' se Hse). specialize (Hbefore _ se Hgt Hse). lra.
  - intros i item item' Hitem Hitem'.
    destruct (to_training_data_frame_at _ _ _ _ Hrun _ _ Hitem) as (se & Hse & -> & ->).
    destruct (to_training_data_frame_at _ _ _ _ Hrun' _ _ Hitem') as (se' & Hse' & -> & ->).
    assert (se' = se) as -> by congruence. done.
Qed.

Lemma retained_frames_do_not_depend_on_keys_witness :
  to_training_data (recorder_discarding 0) scenario_keys scenario_screens
    = Some (Ok scenario_dataset) ∧
  to_training_data (recorder_discarding 0) [] scenario_screens
    = Some (Ok ((λ item, mkDatasetItem (screen item) [] (timestamp item))
                <$> scenario_dataset)) ∧
  length scenario_dataset
  = length ((λ item, mkDatasetItem (screen item) [] (timestamp item))
            <$> scenario_dataset).
Proof.
  assert (Hrun' : to_training_data (recorder_discarding 0) [] scenario_screens
                  = Some (Ok ((λ item, mkDatasetItem (screen item) [] (timestamp item))
                              <$> scenario_dataset))) by (vm_compute; reflexivity).
  split; [exact scenario_merge|]. split; [exact Hrun'|].
  exact (proj1 (retained_frames_do_not_depend_on_keys (recorder_discarding 0)
                  scenario_keys [] scenario_screens _ _ scenario_merge Hrun')).
Defined.
